(** * findash: the personal finance dashboard backend

    A shallow embedding of [src/findash]: the enumerations and the validated
    request shape of [data_contract.py], the table and its column defaults of
    [database.py], the queries of [crud.py] and the request handlers of
    [app.py], followed by the properties of the specification.

    Conventions of the embedding.
    - A [Decimal] amount is an exact rational ([Qc]) or one of the special
      values; the binary floating point in which the storage engine keeps a
      DECIMAL(10, 2) column is not represented.
    - A [datetime] is an integer number of clock ticks.
    - A Python [str] is a [string]; its length is counted in characters of
      that string.
    - The [transactions] table is a finite map from the primary key [id] to
      the row: a query that filters on [id] is a lookup.
    - A call that can raise returns a [result]; code that also touches the
      session runs in the monad [M] of the [crud] module. *)

From Stdlib Require Import QArith Qcanon Ascii String.
From stdpp Require Import gmap strings list fin_maps sorting numbers pretty.

Open Scope Z_scope.

Abbreviation datetime := Z.

(** ** Exceptions *)

(** The exception classes that the handlers tell apart, and the library
    exceptions that reach an [except Exception] clause. *)
Inductive Exception :=
  | HTTPException (status_code : Z) (detail : string)
  | EmptyDataError (msg : string)
  | ParserError (msg : string)
  | UnicodeDecodeError (msg : string)
  | KeyError (key : string)
  | ValueError (msg : string)
  | InvalidOperation (msg : string)
  | ValidationError (fields : list string)
  | OperationalError (msg : string).

(** [str(e)].  Starlette renders an [HTTPException] as its status code, a
    colon and the detail; pydantic's [ValidationError] names the model and
    the offending fields; the other classes render their argument. *)
Definition str (e : Exception) : string :=
  match e with
  | HTTPException status_code detail => pretty status_code +:+ ": " +:+ detail
  | EmptyDataError msg => msg
  | ParserError msg => msg
  | UnicodeDecodeError msg => msg
  | KeyError key => "'" +:+ key +:+ "'"
  | ValueError msg => msg
  | InvalidOperation msg => msg
  | ValidationError fields =>
      pretty (length fields) +:+ " validation error for TransactionCreate: "
        +:+ String.concat ", " fields
  | OperationalError msg => msg
  end.

(** The outcome of a call: it raises or it returns. *)
Inductive result (A : Type) :=
  | Raise (e : Exception)
  | Return (a : A).
Arguments Raise {A} e.
Arguments Return {A} a.

(** ** data_contract.py *)

Module data_contract.

(** A [Decimal]: finite, or one of the special values that the constructor
    also accepts. *)
Inductive Decimal :=
  | Finite (q : Qc)
  | NaN
  | Infinity (negative : bool).

Module TransactionType.
Inductive t := INCOME | EXPENSE | TRANSFER.

#[global] Instance eq_dec : EqDecision t.
Proof. solve_decision. Defined.

Definition members : list t := [INCOME; EXPENSE; TRANSFER].

(** [auto()] in a [StrEnum] gives the lower-cased member name. *)
Definition value (x : t) : string :=
  match x with
  | INCOME => "income"
  | EXPENSE => "expense"
  | TRANSFER => "transfer"
  end.

(** [TransactionType(s)]: the member whose value is [s]. *)
Definition call (s : string) : result t :=
  match List.find (λ m, String.eqb (value m) s) members with
  | Some m => Return m
  | None => Raise (ValueError ("'" +:+ s +:+ "' is not a valid TransactionType"))
  end.
End TransactionType.

Module Category.
Inductive t :=
  | SALARY | FREELANCE | INVESTMENT | OTHER_INCOME
  | FOOD | TRANSPORT | ENTERTAINMENT | UTILITIES | RENT | SHOPPING
  | HEALTHCARE | EDUCATION | OTHER_EXPENSE
  | TRANSFER.

#[global] Instance eq_dec : EqDecision t.
Proof. solve_decision. Defined.

Definition members : list t :=
  [SALARY; FREELANCE; INVESTMENT; OTHER_INCOME;
   FOOD; TRANSPORT; ENTERTAINMENT; UTILITIES; RENT; SHOPPING;
   HEALTHCARE; EDUCATION; OTHER_EXPENSE;
   TRANSFER].

Definition value (x : t) : string :=
  match x with
  | SALARY => "salary"
  | FREELANCE => "freelance"
  | INVESTMENT => "investment"
  | OTHER_INCOME => "other_income"
  | FOOD => "food"
  | TRANSPORT => "transport"
  | ENTERTAINMENT => "entertainment"
  | UTILITIES => "utilities"
  | RENT => "rent"
  | SHOPPING => "shopping"
  | HEALTHCARE => "healthcare"
  | EDUCATION => "education"
  | OTHER_EXPENSE => "other_expense"
  | TRANSFER => "transfer"
  end.

(** [Category(s)]. *)
Definition call (s : string) : result t :=
  match List.find (λ m, String.eqb (value m) s) members with
  | Some m => Return m
  | None => Raise (ValueError ("'" +:+ s +:+ "' is not a valid Category"))
  end.
End Category.

(** [TransactionCreate]: a value of this record has passed the field
    constraints of [TransactionBase]; it is only built by
    [TransactionCreate_init] below. *)
Record TransactionCreate := {
  amount : Qc;
  description : string;
  category : Category.t;
  transaction_type : TransactionType.t;
  date : datetime;
}.

(** [amount: Decimal = Field(..., gt=0)]. *)
Definition check_amount (a : Decimal) : option Qc :=
  match a with
  | Finite q => if bool_decide (0 < q)%Qc then Some q else None
  | NaN | Infinity _ => None
  end.

(** [description: str = Field(..., min_length=1, max_length=255)]. *)
Definition check_description (d : string) : bool :=
  bool_decide (1 ≤ String.length d)%nat && bool_decide (String.length d ≤ 255)%nat.

(** The model constructor with typed enumeration members, as the CSV
    import calls it.  [now] is the reading of [datetime.now] that the
    [default_factory] of [date] takes when no date is given.  Every failing
    field is reported in one [ValidationError]. *)
Definition TransactionCreate_init (now : datetime) (amount : Decimal)
    (description : string) (category : Category.t)
    (transaction_type : TransactionType.t) (date : option datetime)
    : result TransactionCreate :=
  match check_amount amount, check_description description with
  | Some q, true =>
      Return {| amount := q; description := description;
                category := category; transaction_type := transaction_type;
                date := default now date |}
  | bad_amount, good_description =>
      Raise (ValidationError
               ((if bad_amount is None then ["amount"] else [])
                  ++ (if good_description then [] else ["description"])))
  end.

(** A request body of POST /transactions after JSON decoding: the
    enumeration fields are still text. *)
Record TransactionBody := {
  body_amount : Decimal;
  body_description : string;
  body_category : string;
  body_transaction_type : string;
  body_date : option datetime;
}.

Definition is_Return {A} (r : result A) : bool :=
  match r with Return _ => true | Raise _ => false end.

(** Validation of a request body against [TransactionCreate]. *)
Definition model_validate (now : datetime) (b : TransactionBody)
    : result TransactionCreate :=
  match check_amount (body_amount b), check_description (body_description b),
        Category.call (body_category b),
        TransactionType.call (body_transaction_type b) with
  | Some q, true, Return c, Return ty =>
      Return {| amount := q; description := body_description b;
                category := c; transaction_type := ty;
                date := default now (body_date b) |}
  | bad_amount, good_description, c, ty =>
      Raise (ValidationError
               ((if bad_amount is None then ["amount"] else [])
                  ++ (if good_description then [] else ["description"])
                  ++ (if is_Return c then [] else ["category"])
                  ++ (if is_Return ty then [] else ["transaction_type"])))
  end.

End data_contract.

(** ** database.py *)

Module database.
Import data_contract.

(** A row of the table [transactions]. *)
Record Transaction := {
  id : Z;
  amount : Qc;
  description : string;
  category : Category.t;
  transaction_type : TransactionType.t;
  date : datetime;
  created_at : datetime;
}.

(** The class body of [Transaction] runs once, when the module is
    imported.  [Column(DateTime, default=datetime.now(UTC))] calls
    [datetime.now] there and hands the resulting value to [Column]: the
    default of the column is that value. *)
Record Columns := {
  date_default : datetime;
  created_at_default : datetime;
}.

(** Importing the module, with the two readings of the clock that the
    class body takes. *)
Definition import_module (now_date now_created_at : datetime) : Columns :=
  {| date_default := now_date; created_at_default := now_created_at |}.

(** A session: the column defaults of the imported module, the rows of
    the table by primary key, and the storage engine.  The engine is a
    collaborator whose commits can fail (a locked or full database file):
    [engine] lists its verdicts on the coming commits, [Some msg] for a
    commit that raises with message [msg]; when the list is exhausted every
    commit succeeds. *)
Record Session := {
  columns : Columns;
  transactions : gmap Z Transaction;
  engine : list (option string);
}.

(** The rows of the table, in the order of the engine's table scan. *)
Definition rows (db : Session) : list Transaction :=
  (map_to_list (transactions db)).*2.

(** The key that an INTEGER PRIMARY KEY column receives on insert: one more
    than the largest key in use. *)
Definition next_id (table : gmap Z Transaction) : Z :=
  foldr Z.max 0 (map_to_list table).*1 + 1.

End database.

(** ** crud.py *)

Module crud.
Import data_contract.
Export database.

(** Code that uses the session: it returns or raises, and leaves a
    session behind in both cases. *)
Definition M (A : Type) : Type := Session → result A * Session.

#[global] Instance M_ret : MRet M := λ A a db, (Return a, db).
#[global] Instance M_bind : MBind M := λ A B k c db,
  match c db with
  | (Raise e, db') => (Raise e, db')
  | (Return a, db') => k a db'
  end.

Definition raise {A} (e : Exception) : M A := λ db, (Raise e, db).

Definition lift {A} (r : result A) : M A := λ db, (r, db).

(** [db.commit()] with [change] pending: the engine takes the change or
    raises, and then the table is as before. *)
Definition commit (change : gmap Z Transaction → gmap Z Transaction) : M () :=
  λ db,
    match engine db with
    | Some msg :: verdicts =>
        (Raise (OperationalError msg),
         {| columns := columns db; transactions := transactions db;
            engine := verdicts |})
    | verdicts =>
        (Return (),
         {| columns := columns db; transactions := change (transactions db);
            engine := tail verdicts |})
    end.

(** [db.refresh(obj)]: the row as the table now has it. *)
Definition refresh (key : Z) : M Transaction :=
  λ db,
    match transactions db !! key with
    | Some row => (Return row, db)
    | None => (Raise (OperationalError "Could not refresh instance"), db)
    end.

(** [create_transaction].  The object is built from the five fields of the
    request; the insert gives it the next key and, for [created_at], the
    default of the column. *)
Definition create_transaction (transaction : TransactionCreate) : M Transaction :=
  λ db,
    let key := next_id (transactions db) in
    let db_transaction :=
      {| id := key;
         amount := data_contract.amount transaction;
         description := data_contract.description transaction;
         category := data_contract.category transaction;
         transaction_type := data_contract.transaction_type transaction;
         date := data_contract.date transaction;
         created_at := created_at_default (columns db) |} in
    (commit (insert key db_transaction) ;; refresh key) db.

(** [get_transaction]: the row with the given primary key, if any. *)
Definition get_transaction (db : Session) (transaction_id : Z) : option Transaction :=
  transactions db !! transaction_id.

(** [ORDER BY date DESC]. *)
Definition date_desc (a b : Transaction) : Prop := date b ≤ date a.

#[global] Instance date_desc_dec : RelDecision date_desc.
Proof. intros a b. unfold date_desc. apply _. Defined.

Definition order_by_date_desc (l : list Transaction) : list Transaction :=
  merge_sort date_desc l.

(** [OFFSET n] and [LIMIT n] as SQLite evaluates them: a negative offset
    counts as zero, a negative limit is no limit. *)
Definition offset {A} (n : Z) (l : list A) : list A := drop (Z.to_nat n) l.

Definition limit {A} (n : Z) (l : list A) : list A :=
  if bool_decide (n < 0) then l else take (Z.to_nat n) l.

(** [get_transactions]. *)
Definition get_transactions (db : Session) (skip : Z) (lim : Z) : list Transaction :=
  limit lim (offset skip (order_by_date_desc (rows db))).

Definition get_transactions_default (db : Session) : list Transaction :=
  get_transactions db 0 100.

(** [delete_transaction]. *)
Definition delete_transaction (transaction_id : Z) : M bool :=
  λ db,
    match transactions db !! transaction_id with
    | Some db_transaction => (commit (delete transaction_id) ;; mret true) db
    | None => (Return false, db)
    end.

(** [func.sum(...)...scalar()]: SUM over no row is NULL. *)
Definition func_sum (l : list Qc) : option Qc :=
  match l with
  | [] => None
  | _ => Some (foldr Qcplus 0%Qc l)
  end.

(** [result or Decimal("0.00")]: [None] and a zero are both falsy. *)
Definition or_zero (r : option Qc) : Qc :=
  match r with
  | Some q => if bool_decide (q = 0%Qc) then 0%Qc else q
  | None => 0%Qc
  end.

Definition of_type (ty : TransactionType.t) (l : list Transaction) : list Transaction :=
  filter (λ t, transaction_type t = ty) l.

(** [get_total_income] and [get_total_expenses]. *)
Definition get_total_income (db : Session) : Qc :=
  or_zero (func_sum (amount <$> of_type TransactionType.INCOME (rows db))).

Definition get_total_expenses (db : Session) : Qc :=
  or_zero (func_sum (amount <$> of_type TransactionType.EXPENSE (rows db))).

(** [get_transaction_count]. *)
Definition get_transaction_count (db : Session) : Z :=
  Z.of_nat (size (transactions db)).

(** [GROUP BY category] with [SUM(amount)]: one group for every category
    that has a row. *)
Definition group_by_category (l : list Transaction) : list (Category.t * Qc) :=
  omap (λ c, (c,.) <$> func_sum (amount <$> filter (λ t, category t = c) l))
       Category.members.

(** [ORDER BY total DESC]. *)
Definition total_desc (a b : Category.t * Qc) : Prop := (b.2 ≤ a.2)%Qc.

#[global] Instance total_desc_dec : RelDecision total_desc.
Proof. intros a b. unfold total_desc. apply _. Defined.

(** [get_top_expense_category]: the value of the category of the first
    group, or [None]. *)
Definition get_top_expense_category (db : Session) : option string :=
  match
    head (merge_sort total_desc
            (group_by_category (of_type TransactionType.EXPENSE (rows db))))
  with
  | Some result => Some (Category.value result.1)
  | None => None
  end.

End crud.

(** ** app.py *)

Module app.
Import data_contract.
Export crud.

(** What a handler answers: the returned body, or the exception that the
    framework turns into an error response. *)
Definition status_code {A} (r : result A) : Z :=
  match r with
  | Return _ => 200
  | Raise (HTTPException code _) => code
  | Raise _ => 500
  end.

(** POST /transactions.  The framework validates the body against
    [TransactionCreate] before the handler runs and answers 422 when the
    validation fails. *)
Definition create_transaction (now : datetime) (body : TransactionBody) : M Transaction :=
  match model_validate now body with
  | Raise e => raise (HTTPException 422 (str e))
  | Return transaction => crud.create_transaction transaction
  end.

(** GET /transactions. *)
Definition get_transactions (db : Session) (skip : Z) (lim : Z) : list Transaction :=
  crud.get_transactions db skip lim.

(** GET /transactions/{transaction_id}. *)
Definition get_transaction (db : Session) (transaction_id : Z) : result Transaction :=
  match crud.get_transaction db transaction_id with
  | None => Raise (HTTPException 404 "Transaction not found")
  | Some db_transaction => Return db_transaction
  end.

(** DELETE /transactions/{transaction_id}. *)
Definition delete_transaction (transaction_id : Z) : M string :=
  success ← crud.delete_transaction transaction_id;
  if negb success then raise (HTTPException 404 "Transaction not found")
  else mret "Transaction deleted successfully".

Record DashboardSummary := {
  total_income : Qc;
  total_expenses : Qc;
  net_worth : Qc;
  transaction_count : Z;
  top_expense_category : option string;
}.

(** GET /dashboard/summary. *)
Definition get_dashboard_summary (db : Session) : DashboardSummary :=
  let total_income := crud.get_total_income db in
  let total_expenses := crud.get_total_expenses db in
  {| total_income := total_income;
     total_expenses := total_expenses;
     net_worth := (total_income - total_expenses)%Qc;
     transaction_count := crud.get_transaction_count db;
     top_expense_category := crud.get_top_expense_category db |}.

(** *** The CSV upload *)

(** The frame that [pd.read_csv] returns: the header and the data rows,
    under the default index 0, 1, 2, ...  A cell is kept as the text that
    [str] and an f-string give for it; a missing cell reads ["nan"]. *)
Record DataFrame := {
  df_columns : list string;
  df_values : list (list string);
}.

Definition len (df : DataFrame) : Z := Z.of_nat (length (df_values df)).

(** One row of the frame, labelled with the frame's columns. *)
Record Series := {
  labels : list string;
  cells : list string;
}.

(** [df.iterrows()]: the pairs of index and row. *)
Definition iterrows (df : DataFrame) : list (Z * Series) :=
  imap (λ i r, (Z.of_nat i, {| labels := df_columns df; cells := r |}))
       (df_values df).

(** [row[col]]. *)
Definition getitem (row : Series) (col : string) : result string :=
  match list_find (λ c, c = col) (labels row) with
  | Some (j, _) => Return (default "nan" (cells row !! j))
  | None => Raise (KeyError col)
  end.

(** [s.endswith(suffix)]. *)
Definition endswith (s suffix : string) : bool :=
  bool_decide (String.length suffix ≤ String.length s)%nat
  && String.eqb
       (String.substring (String.length s - String.length suffix)%nat
          (String.length suffix) s)
       suffix.

(** The [repr] of a list of strings, as an f-string prints it. *)
Definition repr_list (l : list string) : string :=
  "[" +:+ String.concat ", " ((λ s, "'" +:+ s +:+ "'") <$> l) +:+ "]".

Definition required_columns : list string :=
  ["amount"; "description"; "category"; "transaction_type"].

Definition category_str : list string := Category.value <$> Category.members.

Definition transaction_type_str : list string :=
  TransactionType.value <$> TransactionType.members.

(** The local variables that the loop updates. *)
Record Locals := {
  errors : list string;
  successful_imports : Z;
}.

(** The report of an import. *)
Record Report := {
  message : string;
  report_successful_imports : Z;
  total_rows : Z;
  report_errors : list string;
}.

(** [errors = []] and [successful_imports = 0]. *)
Definition Locals_init : Locals := {| errors := []; successful_imports := 0 |}.

(** [errors.append(msg)] and [successful_imports += 1]. *)
Definition append_error (l : Locals) (msg : string) : Locals :=
  {| errors := errors l ++ [msg]; successful_imports := successful_imports l |}.

Definition count_success (l : Locals) : Locals :=
  {| errors := errors l; successful_imports := successful_imports l + 1 |}.

(** The head of every row message: [f"Row {index + 1}: "]. *)
Definition row_label (index : Z) : string := "Row " +:+ pretty (index + 1) +:+ ": ".

Section upload.

(** [Decimal(s)] of the decimal module. *)
Variable Decimal_of_str : string → result Decimal.

(** The reading of [datetime.now] while the row with the given index is
    built. *)
Variable clock : Z → datetime.

(** The [try] block of the loop body. *)
Definition row_try (index : Z) (row : Series) (l : Locals) : M Locals :=
  cat ← lift (getitem row "category");
  if bool_decide (cat ∉ category_str) then
    mret (append_error l (row_label index +:+ "Invalid category '" +:+ cat +:+ "'"))
  else
    ty ← lift (getitem row "transaction_type");
    if bool_decide (ty ∉ transaction_type_str) then
      mret (append_error l
              (row_label index +:+ "Invalid transaction_type '" +:+ ty +:+ "'"))
    else
      amount_cell ← lift (getitem row "amount");
      amount ← lift (Decimal_of_str amount_cell);
      description ← lift (getitem row "description");
      category ← lift (Category.call cat);
      transaction_type ← lift (TransactionType.call ty);
      transaction_data ← lift (TransactionCreate_init (clock index) amount
                                 description category transaction_type None);
      crud.create_transaction transaction_data ;;
      mret (count_success l).

(** The loop body: the [try] block under its [except Exception]. *)
Definition row_step (index : Z) (row : Series) (l : Locals) : M Locals :=
  λ db,
    match row_try index row l db with
    | (Return l', db') => (Return l', db')
    | (Raise e, db') =>
        (Return (append_error l (row_label index +:+ str e)), db')
    end.

(** [for index, row in df.iterrows()]. *)
Fixpoint for_rows (rows : list (Z * Series)) (l : Locals) : M Locals :=
  match rows with
  | [] => mret l
  | (index, row) :: rest => l' ← row_step index row l; for_rows rest l'
  end.

(** The outer [try] block.  [read] is the outcome of decoding the upload
    and of [pd.read_csv] on it. *)
Definition upload_try (read : result DataFrame) : M Report :=
  df ← lift read;
  let missing_columns :=
    filter (λ col, col ∉ df_columns df) required_columns in
  if bool_decide (missing_columns ≠ []) then
    raise (HTTPException 400
             ("Missing required columns: " +:+ repr_list missing_columns))
  else
    l ← for_rows (iterrows df) Locals_init;
    mret {| message := "CSV processed successfully";
            report_successful_imports := successful_imports l;
            total_rows := len df;
            report_errors := take 10 (errors l) |}.

(** POST /transactions/upload-csv: the check of the file name, then the
    [try] block under its three [except] clauses. *)
Definition upload_transactions_csv (filename : string)
    (read : result DataFrame) : M Report :=
  if negb (endswith filename ".csv") then
    raise (HTTPException 400 "File must be a CSV")
  else
    λ db,
      match upload_try read db with
      | (Return report, db') => (Return report, db')
      | (Raise (EmptyDataError _), db') =>
          (Raise (HTTPException 400 "CSV file is empty"), db')
      | (Raise (ParserError _), db') =>
          (Raise (HTTPException 400 "Invalid CSV format"), db')
      | (Raise e, db') =>
          (Raise (HTTPException 500 ("Error processing CSV: " +:+ str e)), db')
      end.

End upload.

End app.

(** ** The decimal constructor on plain literals *)

(** The properties of the import below hold for every behaviour of
    [Decimal(s)].  The examples run with the constructor restricted to the
    literals that a CSV file of amounts holds: an optional sign, digits, an
    optional fraction, and the spellings of the special values; any other
    text raises. *)
Module decimal.
Import data_contract.

Definition digit (c : Ascii.ascii) : option Z :=
  let n := Z.of_nat (Ascii.nat_of_ascii c) in
  if bool_decide (48 ≤ n ≤ 57) then Some (n - 48) else None.

Fixpoint digits (acc : Z) (s : string) : option Z :=
  match s with
  | EmptyString => Some acc
  | String c rest => d ← digit c; digits (10 * acc + d) rest
  end.

(** The text before and after the first point. *)
Fixpoint split_point (s : string) : string * string :=
  match s with
  | EmptyString => (EmptyString, EmptyString)
  | String c rest =>
      if Ascii.eqb c "."%char then (EmptyString, rest)
      else let '(a, b) := split_point rest in (String c a, b)
  end.

Definition unsigned (s : string) : option Qc :=
  let '(int_part, frac_part) := split_point s in
  if bool_decide (String.length int_part + String.length frac_part = 0)%nat then None
  else
    i ← digits 0 int_part;
    f ← digits 0 frac_part;
    let scale := Z.to_pos (10 ^ Z.of_nat (String.length frac_part)) in
    Some (Q2Qc ((i * Z.pos scale + f) # scale)).

Definition Decimal (s : string) : result Decimal :=
  if String.eqb s "nan" || String.eqb s "NaN" then Return NaN
  else if String.eqb s "inf" || String.eqb s "Infinity" then Return (Infinity false)
  else if String.eqb s "-inf" || String.eqb s "-Infinity" then Return (Infinity true)
  else
    match s with
    | String "-"%char rest =>
        match unsigned rest with
        | Some q => Return (Finite (- q)%Qc)
        | None => Raise (InvalidOperation "[<class 'decimal.ConversionSyntax'>]")
        end
    | _ =>
        match unsigned s with
        | Some q => Return (Finite q)
        | None => Raise (InvalidOperation "[<class 'decimal.ConversionSyntax'>]")
        end
    end.
End decimal.

(** ** Accounts: data_contract.py, database.py and crud.py *)

Module accounts.
Import data_contract.
Export crud.

(** [AccountCreate]: a value of this record has passed the field
    constraints of [AccountBase]; it is only built by [AccountCreate_init]. *)
Record AccountCreate := {
  name : string;
  account_type : string;
  balance : Qc;
}.

(** [name: str = Field(..., min_length=1, max_length=100)] and
    [account_type: str = Field(..., min_length=1, max_length=50)]. *)
Definition check_name (s : string) : bool :=
  bool_decide (1 ≤ String.length s)%nat && bool_decide (String.length s ≤ 100)%nat.

Definition check_account_type (s : string) : bool :=
  bool_decide (1 ≤ String.length s)%nat && bool_decide (String.length s ≤ 50)%nat.

(** [balance: Decimal = Field(default=Decimal("0.00"))]: no bound on the
    number, and zero when none is given; a [Decimal] field takes finite
    numbers only. *)
Definition check_balance (b : option Decimal) : option Qc :=
  match b with
  | None => Some 0%Qc
  | Some (Finite q) => Some q
  | Some NaN | Some (Infinity _) => None
  end.

(** The model constructor.  Every failing field is reported in one
    [ValidationError], in the order of the fields. *)
Definition AccountCreate_init (name account_type : string)
    (balance : option Decimal) : result AccountCreate :=
  match check_name name, check_account_type account_type,
        check_balance balance with
  | true, true, Some q =>
      Return {| name := name; account_type := account_type; balance := q |}
  | good_name, good_type, good_balance =>
      Raise (ValidationError
               ((if good_name then [] else ["name"])
                  ++ (if good_type then [] else ["account_type"])
                  ++ (if good_balance is None then ["balance"] else [])))
  end.

(** A row of the table [accounts]. *)
Record Account := {
  account_id : Z;
  account_name : string;
  account_account_type : string;
  account_balance : Qc;
  account_created_at : datetime;
  account_updated_at : datetime;
}.

(** The defaults of the columns [created_at] and [updated_at], which the
    class body of [Account] evaluates when the module is imported. *)
Record AccountColumns := {
  account_created_at_default : datetime;
  account_updated_at_default : datetime;
}.

(** The database of a session with its second table. *)
Record Database := {
  session : Session;
  account_columns : AccountColumns;
  accounts : gmap Z Account;
}.

Definition MA (A : Type) : Type := Database → result A * Database.

(** The key of an insert into [accounts]. *)
Definition next_account_id (table : gmap Z Account) : Z :=
  foldr Z.max 0 (map_to_list table).*1 + 1.

(** [db.commit()] with a change to [accounts] pending. *)
Definition commit_accounts (change : gmap Z Account → gmap Z Account) : MA () :=
  λ d,
    match engine (session d) with
    | Some msg :: verdicts =>
        (Raise (OperationalError msg),
         {| session := {| columns := columns (session d);
                          transactions := transactions (session d);
                          engine := verdicts |};
            account_columns := account_columns d;
            accounts := accounts d |})
    | verdicts =>
        (Return (),
         {| session := {| columns := columns (session d);
                          transactions := transactions (session d);
                          engine := tail verdicts |};
            account_columns := account_columns d;
            accounts := change (accounts d) |})
    end.

(** [create_account]: the object gets the fields of the request, the
    insert gives it the next key and the defaults of the two time columns. *)
Definition create_account (account : AccountCreate) : MA Account :=
  λ d,
    let key := next_account_id (accounts d) in
    let db_account :=
      {| account_id := key;
         account_name := name account;
         account_account_type := account_type account;
         account_balance := balance account;
         account_created_at := account_created_at_default (account_columns d);
         account_updated_at := account_updated_at_default (account_columns d) |} in
    match commit_accounts (insert key db_account) d with
    | (Raise e, d') => (Raise e, d')
    | (Return _, d') =>
        match accounts d' !! key with
        | Some row => (Return row, d')
        | None => (Raise (OperationalError "Could not refresh instance"), d')
        end
    end.

(** [get_accounts]: every row of the table. *)
Definition get_accounts (d : Database) : list Account :=
  (map_to_list (accounts d)).*2.

End accounts.

(** * The vocabulary of the specification *)

Import data_contract.
Import app.

(** The engine takes the next commit. *)
Definition accepts (db : Session) : Prop :=
  match engine db with
  | Some _ :: _ => False
  | _ => True
  end.

#[global] Instance accepts_dec db : Decision (accepts db).
Proof. unfold accepts. destruct (engine db) as [|[?|] ?]; apply _. Defined.

(** The row that [create_transaction] inserts for a request. *)
Definition new_row (db : Session) (tc : TransactionCreate) : Transaction :=
  {| id := next_id (transactions db);
     amount := data_contract.amount tc;
     description := data_contract.description tc;
     category := data_contract.category tc;
     transaction_type := data_contract.transaction_type tc;
     date := data_contract.date tc;
     created_at := created_at_default (columns db) |}.

(** The header of the frame has every required column. *)
Definition has_required_columns (df : DataFrame) : Prop :=
  Forall (λ col, col ∈ df_columns df) required_columns.

#[global] Instance has_required_columns_dec df : Decision (has_required_columns df).
Proof. unfold has_required_columns. apply _. Defined.

(** The message of the specification for data row number [n], counted from
    one at the first data row: ["Row <n>: <text>"]. *)
Definition row_message (n : Z) (text : string) : string :=
  "Row " +:+ pretty n +:+ ": " +:+ text.

(** The rows of a frame from position [start] on, with their index. *)
Definition iterrows_from (start : nat) (cols : list string)
    (values : list (list string)) : list (Z * Series) :=
  imap (λ i r, (Z.of_nat (start + i), {| labels := cols; cells := r |})) values.

(** The report that the handler builds from the final locals. *)
Definition report_of (df : DataFrame) (l : Locals) : Report :=
  {| message := "CSV processed successfully";
     report_successful_imports := successful_imports l;
     total_rows := len df;
     report_errors := take 10 (errors l) |}.

(** ** Sample data *)

(** A session on an empty table, of a process that imported the module
    [database] at the clock readings 10 and 11. *)
Definition sample_session : Session :=
  {| columns := import_module 10 11; transactions := ∅; engine := [] |}.

(** The reading of the clock while row [index] of an upload is built. *)
Definition sample_clock (index : Z) : datetime := 100 + index.

Definition sample_header : list string :=
  ["amount"; "description"; "category"; "transaction_type"].

(** The upload of the specification: three data rows, the second with the
    category ["bogus"]. *)
Definition sample_frame : DataFrame :=
  {| df_columns := sample_header;
     df_values := [["100.0"; "pay"; "salary"; "income"];
                   ["5.0"; "toy"; "bogus"; "expense"];
                   ["40.0"; "lunch"; "food"; "expense"]] |}.

(** An upload of twelve data rows: eleven with an unknown category, then a
    valid one. *)
Definition long_frame : DataFrame :=
  {| df_columns := sample_header;
     df_values := replicate 11 ["5.0"; "toy"; "bogus"; "expense"]
                    ++ [["40.0"; "lunch"; "food"; "expense"]] |}.

(** An upload whose header lacks the column [amount]. *)
Definition frame_without_amount : DataFrame :=
  {| df_columns := ["description"; "category"; "transaction_type"];
     df_values := [["pay"; "salary"; "income"]] |}.

(** ** Totals, as the specification words them *)

(** The sum of [amount] over the transactions of one type. *)
Fixpoint total_of (ty : TransactionType.t) (l : list Transaction) : Qc :=
  match l with
  | [] => 0%Qc
  | t :: l' =>
      if decide (transaction_type t = ty) then (amount t + total_of ty l')%Qc
      else total_of ty l'
  end.

(** The number of transactions of one type. *)
Definition count_of (ty : TransactionType.t) (l : list Transaction) : nat :=
  length (filter (λ t, transaction_type t = ty) l).

(** The sum of [amount] over the expenses of one category. *)
Fixpoint expenses_of (c : Category.t) (l : list Transaction) : Qc :=
  match l with
  | [] => 0%Qc
  | t :: l' =>
      if decide (transaction_type t = TransactionType.EXPENSE ∧ category t = c)
      then (amount t + expenses_of c l')%Qc
      else expenses_of c l'
  end.

(** The category has an expense. *)
Definition has_expense (c : Category.t) (l : list Transaction) : Prop :=
  ∃ t, t ∈ l ∧ transaction_type t = TransactionType.EXPENSE ∧ category t = c.

(** A request body with the given amount, category and type. *)
Definition sample_body (amount : Z) (category transaction_type : string)
    : TransactionBody :=
  {| body_amount := Finite (Qc_of_Z amount);
     body_description := "sample";
     body_category := category;
     body_transaction_type := transaction_type;
     body_date := None |}.

(** The session after a list of POST /transactions requests, the request
    number [i] handled at clock reading [i]. *)
Fixpoint post_all (now : datetime) (bodies : list TransactionBody)
    (db : Session) : Session :=
  match bodies with
  | [] => db
  | body :: rest => post_all (now + 1) rest (app.create_transaction now body db).2
  end.

(** An income of 100.00 and an expense of 40.00. *)
Definition income_and_expense : Session :=
  post_all 200 [sample_body 100 "salary" "income"; sample_body 40 "food" "expense"]
    sample_session.

(** Expenses of 30 on food, 50 on rent and 10 on food. *)
Definition food_rent_food : Session :=
  post_all 200 [sample_body 30 "food" "expense"; sample_body 50 "rent" "expense";
                sample_body 10 "food" "expense"]
    sample_session.

(** ** The write paths *)

(** Every persisted amount is strictly positive. *)
Definition positive_amounts (db : Session) : Prop :=
  map_Forall (λ _ t, (0 < amount t)%Qc) (transactions db).

(** The requests that write to the table. *)
Inductive request :=
  | POST_transactions (now : datetime) (body : TransactionBody)
  | DELETE_transaction (transaction_id : Z)
  | POST_upload_csv (clock : Z → datetime) (filename : string)
      (read : result DataFrame).

(** The session that a request leaves behind. *)
Definition handle (Decimal_of_str : string → result Decimal) (r : request)
    (db : Session) : Session :=
  match r with
  | POST_transactions now body => (app.create_transaction now body db).2
  | DELETE_transaction transaction_id => (app.delete_transaction transaction_id db).2
  | POST_upload_csv clock filename read =>
      (upload_transactions_csv Decimal_of_str clock filename read db).2
  end.

(** The sessions of a running service: it starts on an empty table and
    handles one request after the other. *)
Inductive reachable (Decimal_of_str : string → result Decimal) : Session → Prop :=
  | reachable_start cols verdicts :
      reachable Decimal_of_str
        {| columns := cols; transactions := ∅; engine := verdicts |}
  | reachable_step db r :
      reachable Decimal_of_str db →
      reachable Decimal_of_str (handle Decimal_of_str r db).

(** What a call returned, if it returned. *)
Definition returned {A} (r : result A) : option A :=
  match r with
  | Return a => Some a
  | Raise _ => None
  end.

(** A session on an empty table, of a process that imported the module
    [database] at the clock reading 1000. *)
Definition session_imported_at_1000 : Session :=
  {| columns := import_module 1000 1000; transactions := ∅; engine := [] |}.

(** * Further vocabulary *)

(** A request body that passes the validation of [TransactionCreate]. *)
Definition valid_body (b : TransactionBody) : Prop :=
  (∃ q, body_amount b = Finite q ∧ (0 < q)%Qc)
  ∧ (1 ≤ String.length (body_description b) ≤ 255)%nat
  ∧ body_category b ∈ category_str
  ∧ body_transaction_type b ∈ transaction_type_str.

(** Every row is stored under its own [id]. *)
Definition keys_match (db : Session) : Prop :=
  map_Forall (λ k t, id t = k) (transactions db).

(** What a transaction adds to the net worth. *)
Definition signed_amount (t : Transaction) : Qc :=
  match transaction_type t with
  | TransactionType.INCOME => amount t
  | TransactionType.EXPENSE => (- amount t)%Qc
  | TransactionType.TRANSFER => 0%Qc
  end.

(** The sum of the signed amounts. *)
Definition signed_total (l : list Transaction) : Qc :=
  foldr (λ t acc, (signed_amount t + acc)%Qc) 0%Qc l.

(** The four cells of a row pass every check of the import: the category
    is the value of [c], the transaction type the value of [ty], the amount
    is read as the positive number [q], and the description [d] has 1 to 255
    characters. *)
Definition importable (Decimal_of_str : string → result Decimal) (row : Series)
    (q : Qc) (d : string) (c : Category.t) (ty : TransactionType.t) : Prop :=
  getitem row "category" = Return (Category.value c)
  ∧ getitem row "transaction_type" = Return (TransactionType.value ty)
  ∧ (∃ cell, getitem row "amount" = Return cell
             ∧ Decimal_of_str cell = Return (Finite q))
  ∧ (0 < q)%Qc
  ∧ getitem row "description" = Return d
  ∧ (1 ≤ String.length d ≤ 255)%nat.

(** An upload of two rows that pass every check. *)
Definition importable_frame : DataFrame :=
  {| df_columns := sample_header;
     df_values := [["100.0"; "pay"; "salary"; "income"];
                   ["40.0"; "lunch"; "food"; "expense"]] |}.

(** A database on empty tables, of a process that imported the module
    [database] at the clock readings 10 to 13. *)
Definition sample_database : accounts.Database :=
  {| accounts.session := sample_session;
     accounts.account_columns :=
       {| accounts.account_created_at_default := 12;
          accounts.account_updated_at_default := 13 |};
     accounts.accounts := ∅ |}.

(** * Properties *)

(** ** The storage layer *)

Section storage.
Implicit Types (db : Session) (table : gmap Z Transaction).

Lemma foldr_max_bound (l : list Z) (k : Z) : k ∈ l → k ≤ foldr Z.max 0 l.
Proof.
  induction l as [|x l IH]; simpl; [by intros ?%elem_of_nil|].
  intros [->|Hin]%elem_of_cons; [lia|]. specialize (IH Hin). lia.
Qed.

Lemma next_id_bound table k t : table !! k = Some t → k < next_id table.
Proof.
  intros Hk. unfold next_id.
  assert (k ∈ (map_to_list table).*1) as Hin.
  { apply list_elem_of_fmap. exists (k, t). split; [done|].
    by apply elem_of_map_to_list. }
  apply foldr_max_bound in Hin. lia.
Qed.

(** The key of an insert is not in use. *)
Lemma next_id_fresh table : table !! next_id table = None.
Proof.
  destruct (table !! next_id table) as [t|] eqn:Hk; [|done].
  apply next_id_bound in Hk. lia.
Qed.

Lemma create_transaction_accepted db tc :
  accepts db →
  crud.create_transaction tc db =
    (Return (new_row db tc),
     {| columns := columns db;
        transactions := <[next_id (transactions db) := new_row db tc]> (transactions db);
        engine := tail (engine db) |}).
Proof.
  unfold accepts, crud.create_transaction, new_row, mbind, M_bind, commit, refresh.
  destruct (engine db) as [|[msg|] verdicts]; [|done|]; intros _; simpl;
    by rewrite lookup_insert_eq.
Qed.

Lemma create_transaction_refused db tc :
  ¬ accepts db →
  ∃ msg verdicts,
    engine db = Some msg :: verdicts ∧
    crud.create_transaction tc db =
      (Raise (OperationalError msg),
       {| columns := columns db; transactions := transactions db;
          engine := verdicts |}).
Proof.
  unfold accepts, crud.create_transaction, mbind, M_bind, commit.
  destruct (engine db) as [|[msg|] verdicts]; [tauto| |tauto].
  intros _. by exists msg, verdicts.
Qed.

(** Whatever the engine says, the table afterwards is the old one, or the
    old one with the new row under a fresh key; the column defaults stay. *)
Lemma create_transaction_cases db tc :
  (∃ db', crud.create_transaction tc db = (Return (new_row db tc), db')
          ∧ columns db' = columns db
          ∧ transactions db' =
              <[next_id (transactions db) := new_row db tc]> (transactions db))
  ∨ (∃ e db', crud.create_transaction tc db = (Raise e, db')
              ∧ columns db' = columns db
              ∧ transactions db' = transactions db).
Proof.
  destruct (decide (accepts db)) as [Ha|Hn].
  - left. eexists. split; [by apply create_transaction_accepted|done].
  - right. destruct (create_transaction_refused db tc Hn) as (msg & v & _ & ->).
    by eexists _, _.
Qed.

Lemma size_insert_new_row db tc :
  size (<[next_id (transactions db) := new_row db tc]> (transactions db))
  = S (size (transactions db)).
Proof. apply map_size_insert_None, next_id_fresh. Qed.

End storage.

(** ** Validation *)

Section validation.

Lemma check_amount_Some a q :
  check_amount a = Some q ↔ a = Finite q ∧ (0 < q)%Qc.
Proof.
  unfold check_amount. destruct a as [q'| |neg].
  - destruct (bool_decide (0 < q')%Qc) eqn:Hq.
    + apply bool_decide_eq_true in Hq.
      split; [by intros [= <-]|by intros [[= <-] _]].
    + apply bool_decide_eq_false in Hq.
      split; [done|]. intros [[= <-] ?]. tauto.
  - split; [done|by intros [? _]].
  - split; [done|by intros [? _]].
Qed.

Lemma check_description_true d :
  check_description d = true ↔ (1 ≤ String.length d ≤ 255)%nat.
Proof.
  unfold check_description. rewrite andb_true_iff, !bool_decide_eq_true. done.
Qed.

(** What the constructor returns has passed the field constraints and
    carries the arguments. *)
Lemma TransactionCreate_init_Return now a d c ty dt tc :
  TransactionCreate_init now a d c ty dt = Return tc →
  a = Finite (data_contract.amount tc)
  ∧ (0 < data_contract.amount tc)%Qc
  ∧ (1 ≤ String.length d ≤ 255)%nat
  ∧ tc = {| data_contract.amount := data_contract.amount tc;
            data_contract.description := d;
            data_contract.category := c;
            data_contract.transaction_type := ty;
            data_contract.date := default now dt |}.
Proof.
  unfold TransactionCreate_init.
  destruct (check_amount a) as [q|] eqn:Ha;
    destruct (check_description d) eqn:Hd; try done.
  intros [= <-]. apply check_amount_Some in Ha as [-> ?].
  apply check_description_true in Hd. done.
Qed.

Lemma TransactionCreate_init_amount now a d c ty dt :
  check_amount a = None →
  ∃ fields, TransactionCreate_init now a d c ty dt = Raise (ValidationError fields).
Proof.
  unfold TransactionCreate_init. intros ->.
  destruct (check_description d); by eexists.
Qed.

End validation.

(** ** Frames and messages *)

Section frames.

Lemma string_app_assoc (a b c : string) : (a +:+ b) +:+ c = a +:+ (b +:+ c).
Proof.
  induction a as [|x a IH]; [done|].
  change (String x ((a +:+ b) +:+ c) = String x (a +:+ (b +:+ c))).
  by rewrite IH.
Qed.

Lemma row_label_message index text :
  row_label index +:+ text = row_message (index + 1) text.
Proof. unfold row_label, row_message. by rewrite !string_app_assoc. Qed.

Lemma iterrows_from_0 df :
  iterrows df = iterrows_from 0 (df_columns df) (df_values df).
Proof. done. Qed.

Lemma iterrows_from_app start cols v1 v2 :
  iterrows_from start cols (v1 ++ v2) =
    iterrows_from start cols v1 ++ iterrows_from (start + length v1) cols v2.
Proof.
  unfold iterrows_from. rewrite imap_app. f_equal.
  apply imap_ext. intros i r _. simpl. do 2 f_equal. lia.
Qed.

Lemma iterrows_from_cons start cols r v :
  iterrows_from start cols (r :: v) =
    (Z.of_nat start, {| labels := cols; cells := r |})
      :: iterrows_from (S start) cols v.
Proof.
  unfold iterrows_from. simpl. f_equal; [do 2 f_equal; lia|].
  apply imap_ext. intros i r' _. simpl. do 2 f_equal. lia.
Qed.

Lemma iterrows_from_indices start cols v :
  (iterrows_from start cols v).*1 = Z.of_nat <$> seq start (length v).
Proof.
  revert start. induction v as [|r v IH]; intros start; [done|].
  rewrite iterrows_from_cons. simpl. by rewrite IH.
Qed.

Lemma length_iterrows df : length (iterrows df) = length (df_values df).
Proof. apply length_imap. Qed.

(** The header check of the handler. *)
Lemma missing_columns_nil df :
  has_required_columns df ↔
  filter (λ col, col ∉ df_columns df) required_columns = [].
Proof.
  unfold has_required_columns.
  induction required_columns as [|c cs IH]; [done|].
  rewrite Forall_cons, IH, filter_cons.
  destruct (decide (c ∉ df_columns df)) as [Hn|Hy].
  - split; [by intros [? _]|done].
  - apply dec_stable in Hy. tauto.
Qed.

(** With the column in the header, [row[col]] is the cell under it. *)
Lemma getitem_Return cols cs col :
  col ∈ cols → ∃ cell, getitem {| labels := cols; cells := cs |} col = Return cell.
Proof.
  intros Hin. unfold getitem. simpl.
  destruct (list_find (λ c, c = col) cols) as [[j c]|] eqn:Hf; [by eexists|].
  apply list_find_None in Hf. rewrite Forall_forall in Hf. naive_solver.
Qed.

Lemma required_column_in df col :
  has_required_columns df → col ∈ required_columns → col ∈ df_columns df.
Proof. unfold has_required_columns. rewrite Forall_forall. auto. Qed.

End frames.

(** ** The import loop *)

Section import.
Variable Decimal_of_str : string → result Decimal.
Variable clock : Z → datetime.

Local Abbreviation row_try := (row_try Decimal_of_str clock).
Local Abbreviation row_step := (row_step Decimal_of_str clock).
Local Abbreviation for_rows := (for_rows Decimal_of_str clock).

(** The three ways in which the [try] block ends: an exception, with the
    table as it was; one of the two [continue] branches, with the session
    as it was; or the insert of a validated row under a fresh key. *)
Lemma row_try_cases index row l db :
  (∃ e db', row_try index row l db = (Raise e, db')
            ∧ columns db' = columns db
            ∧ transactions db' = transactions db)
  ∨ (∃ msg, row_try index row l db =
              (Return (append_error l (row_label index +:+ msg)), db))
  ∨ (∃ tc cell db', row_try index row l db = (Return (count_success l), db')
               ∧ getitem row "amount" = Return cell
               ∧ Decimal_of_str cell = Return (Finite (data_contract.amount tc))
               ∧ (0 < data_contract.amount tc)%Qc
               ∧ columns db' = columns db
               ∧ transactions db' =
                   <[next_id (transactions db) := new_row db tc]> (transactions db)).
Proof.
  unfold row_try, mbind, M_bind, lift, mret, M_ret.
  destruct (getitem row "category") as [e|cat]; [left; by eexists _, _|].
  case_bool_decide; [right; left; by eexists|].
  destruct (getitem row "transaction_type") as [e|ty]; [left; by eexists _, _|].
  case_bool_decide; [right; left; by eexists|].
  destruct (getitem row "amount") as [e|cell]; [left; by eexists _, _|].
  destruct (Decimal_of_str cell) as [e|a] eqn:Ha; [left; by eexists _, _|].
  destruct (getitem row "description") as [e|d]; [left; by eexists _, _|].
  destruct (Category.call cat) as [e|c]; [left; by eexists _, _|].
  destruct (TransactionType.call ty) as [e|t]; [left; by eexists _, _|].
  destruct (TransactionCreate_init _ _ _ _ _ _) as [e|tc] eqn:Htc;
    [left; by eexists _, _|].
  apply TransactionCreate_init_Return in Htc as (-> & Hpos & _).
  destruct (create_transaction_cases db tc)
    as [(db' & -> & ? & ?)|(e & db' & -> & ? & ?)].
  - right; right. by exists tc, cell, db'.
  - left. by exists e, db'.
Qed.

(** The loop body never raises, and it has one of two outcomes: one more
    message and the table as it was, or one more success and one more
    row. *)
Lemma row_step_cases index row l db :
  (∃ msg db', row_step index row l db =
                (Return (append_error l (row_label index +:+ msg)), db')
              ∧ columns db' = columns db
              ∧ transactions db' = transactions db)
  ∨ (∃ tc cell db', row_step index row l db = (Return (count_success l), db')
               ∧ getitem row "amount" = Return cell
               ∧ Decimal_of_str cell = Return (Finite (data_contract.amount tc))
               ∧ (0 < data_contract.amount tc)%Qc
               ∧ columns db' = columns db
               ∧ transactions db' =
                   <[next_id (transactions db) := new_row db tc]> (transactions db)).
Proof.
  unfold row_step.
  destruct (row_try_cases index row l db)
    as [(e & db' & -> & ? & ?)
       |[(msg & ->)|(tc & cell & db' & -> & ? & ? & ? & ? & ?)]].
  - left. by exists (str e), db'.
  - left. by exists msg, db.
  - right. by exists tc, cell, db'.
Qed.

Lemma for_rows_app rows1 rows2 l db :
  for_rows (rows1 ++ rows2) l db =
    match for_rows rows1 l db with
    | (Return l', db') => for_rows rows2 l' db'
    | (Raise e, db') => (Raise e, db')
    end.
Proof.
  revert l db. induction rows1 as [|[index row] rows1 IH]; intros l db; [done|].
  simpl. unfold mbind, M_bind.
  destruct (row_step index row l db) as [[e|l'] db']; [done|]. apply IH.
Qed.

(** The loop runs to its end. *)
Lemma for_rows_returns rows l db :
  ∃ l' db', for_rows rows l db = (Return l', db').
Proof.
  revert l db. induction rows as [|[index row] rows IH]; intros l db.
  - by exists l, db.
  - simpl. unfold mbind, M_bind.
    destruct (row_step_cases index row l db)
      as [(msg & db' & -> & _)|(tc & cell & db' & -> & _)]; apply IH.
Qed.

(** The whole loop: it returns; its messages are those of the failed
    rows, in the order of the rows and under their row numbers; every row
    is a success or a failure; the table grows by the successes. *)
Lemma for_rows_summary rows l db :
  ∃ l' db' (failed : list (Z * string)),
    for_rows rows l db = (Return l', db')
    ∧ errors l' = errors l ++ ((λ f, row_message (f.1 + 1) f.2) <$> failed)
    ∧ failed.*1 `sublist_of` rows.*1
    ∧ successful_imports l' + Z.of_nat (length failed)
      = successful_imports l + Z.of_nat (length rows)
    ∧ Z.of_nat (size (transactions db'))
      = Z.of_nat (size (transactions db))
        + (successful_imports l' - successful_imports l)
    ∧ columns db' = columns db.
Proof.
  revert l db. induction rows as [|[index row] rows IH]; intros l db.
  - exists l, db, []. simpl. rewrite app_nil_r. repeat split; try done; lia.
  - simpl. unfold mbind, M_bind.
    destruct (row_step_cases index row l db)
      as [(msg & db1 & -> & Hc & Ht)|(tc & cell & db1 & -> & _ & _ & _ & Hc & Ht)].
    + destruct (IH (append_error l (row_label index +:+ msg)) db1)
        as (l' & db' & failed & -> & He & Hs & Hn & Hz & Hc').
      exists l', db', ((index, msg) :: failed). simpl in *.
      rewrite He, <- app_assoc, row_label_message, Ht in *.
      repeat split; try done; [by apply sublist_skip|lia|congruence].
    + destruct (IH (count_success l) db1)
        as (l' & db' & failed & -> & He & Hs & Hn & Hz & Hc').
      exists l', db', failed. simpl in *.
      rewrite Ht, size_insert_new_row in Hz.
      repeat split; try done; [by apply sublist_cons|lia|lia|congruence].
Qed.

(** Past the check of the name and of the header, the handler answers
    with the report of the loop. *)
Lemma upload_reaches_rows filename df db l db' :
  endswith filename ".csv" = true →
  has_required_columns df →
  for_rows (iterrows df) Locals_init db = (Return l, db') →
  upload_transactions_csv Decimal_of_str clock filename (Return df) db
  = (Return (report_of df l), db').
Proof.
  intros Hname Hcols Hloop. unfold upload_transactions_csv, upload_try.
  rewrite Hname. simpl. unfold mbind, M_bind, lift.
  apply missing_columns_nil in Hcols. rewrite Hcols.
  rewrite bool_decide_eq_false_2 by (by intros []).
  by rewrite Hloop.
Qed.

(** The two [continue] branches and the [except] clause of the loop body. *)
Lemma row_step_invalid_category index row l db cat :
  getitem row "category" = Return cat →
  cat ∉ category_str →
  row_step index row l db =
    (Return (append_error l
               (row_message (index + 1) ("Invalid category '" +:+ cat +:+ "'"))), db).
Proof.
  intros Hcat Hno. rewrite <- row_label_message.
  unfold row_step, app.row_try, mbind, M_bind, lift, mret, M_ret.
  rewrite Hcat. by rewrite bool_decide_eq_true_2.
Qed.

Lemma row_step_invalid_transaction_type index row l db cat ty :
  getitem row "category" = Return cat →
  cat ∈ category_str →
  getitem row "transaction_type" = Return ty →
  ty ∉ transaction_type_str →
  row_step index row l db =
    (Return (append_error l
               (row_message (index + 1)
                  ("Invalid transaction_type '" +:+ ty +:+ "'"))), db).
Proof.
  intros Hcat Hyes Hty Hno. rewrite <- row_label_message.
  unfold row_step, app.row_try, mbind, M_bind, lift, mret, M_ret.
  rewrite Hcat. rewrite bool_decide_eq_false_2 by tauto.
  rewrite Hty. by rewrite bool_decide_eq_true_2.
Qed.

Lemma row_step_except index row l db e db' :
  row_try index row l db = (Raise e, db') →
  row_step index row l db =
    (Return (append_error l (row_message (index + 1) (str e))), db')
  ∧ transactions db' = transactions db.
Proof.
  intros Hraise. rewrite <- row_label_message. unfold row_step. rewrite Hraise.
  split; [done|].
  destruct (row_try_cases index row l db)
    as [(e' & db'' & He & _ & Ht)|[(msg & He)|(tc & cell & db'' & He & _)]];
    rewrite Hraise in He; by simplify_eq.
Qed.

End import.

(** ** The CSV import: rows *)



(** The upload of the specification: two rows are created and the second
    row is reported with its invalid category. *)
Example import_with_a_bogus_category :
  (upload_transactions_csv decimal.Decimal sample_clock "upload.csv"
     (Return sample_frame) sample_session).1
  = Return {| message := "CSV processed successfully";
              report_successful_imports := 2;
              total_rows := 3;
              report_errors := ["Row 2: Invalid category 'bogus'"] |}.
Proof. vm_compute. reflexivity. Qed.

(** ** The CSV import: the report *)



(** Eleven failures and one success: the report shows ten messages, counts
    twelve rows, and the valid last row is in the table. *)
Example import_with_eleven_failures :
  let r := upload_transactions_csv decimal.Decimal sample_clock "upload.csv"
             (Return long_frame) sample_session in
  r.1 = Return {| message := "CSV processed successfully";
                  report_successful_imports := 1;
                  total_rows := 12;
                  report_errors :=
                    (λ n, row_message (Z.of_nat n) "Invalid category 'bogus'")
                      <$> seq 1 10 |}
  ∧ size (transactions r.2) = 1%nat.
Proof. vm_compute. done. Qed.



(** ** The CSV import: rejected uploads *)

Section rejected.
Variable Decimal_of_str : string → result Decimal.
Variable clock : Z → datetime.

(** A name that does not end in [.csv] is refused before the [try]
    block. *)
Lemma upload_not_csv filename read db :
  endswith filename ".csv" = false →
  upload_transactions_csv Decimal_of_str clock filename read db
  = (Raise (HTTPException 400 "File must be a CSV"), db).
Proof. intros Hname. unfold upload_transactions_csv. by rewrite Hname. Qed.

(** Content without any row, and content that is no table: status 400,
    and the session is as it was. *)
Lemma upload_empty filename msg db :
  endswith filename ".csv" = true →
  upload_transactions_csv Decimal_of_str clock filename
    (Raise (EmptyDataError msg)) db
  = (Raise (HTTPException 400 "CSV file is empty"), db).
Proof. intros Hname. unfold upload_transactions_csv. by rewrite Hname. Qed.

Lemma upload_unparseable filename msg db :
  endswith filename ".csv" = true →
  upload_transactions_csv Decimal_of_str clock filename
    (Raise (ParserError msg)) db
  = (Raise (HTTPException 400 "Invalid CSV format"), db).
Proof. intros Hname. unfold upload_transactions_csv. by rewrite Hname. Qed.

(** A header that lacks a required column: the [HTTPException] with
    status 400 is raised inside the [try] block, where the clause
    [except Exception] takes it and raises the one with status 500.  The
    missing columns are named in the detail and the session is as it
    was. *)
Lemma upload_missing_columns filename df db :
  endswith filename ".csv" = true →
  ¬ has_required_columns df →
  upload_transactions_csv Decimal_of_str clock filename (Return df) db
  = (Raise (HTTPException 500
              ("Error processing CSV: "
                 +:+ str (HTTPException 400
                            ("Missing required columns: "
                               +:+ repr_list
                                     (filter (λ col, col ∉ df_columns df)
                                             required_columns))))), db).
Proof.
  intros Hname Hmissing. unfold upload_transactions_csv, upload_try.
  rewrite Hname. simpl. unfold mbind, M_bind, lift, raise.
  rewrite missing_columns_nil in Hmissing.
  by rewrite bool_decide_eq_true_2.
Qed.

End rejected.

(** C2, at an upload without the column [amount]: the answer has status
    500, not 400.  Its detail still names the missing column, and no
    transaction is persisted. *)
Theorem C2_missing_column_answers_500 :
  upload_transactions_csv decimal.Decimal sample_clock "upload.csv"
    (Return frame_without_amount) sample_session
  = (Raise (HTTPException 500
              "Error processing CSV: 400: Missing required columns: ['amount']"),
     sample_session)
  ∧ status_code
      (upload_transactions_csv decimal.Decimal sample_clock "upload.csv"
         (Return frame_without_amount) sample_session).1 = 500.
Proof. split; vm_compute; reflexivity. Qed.

(** ** The dashboard: totals *)

Section totals.
Implicit Types (db : Session) (l : list Transaction).

Lemma or_zero_func_sum (l : list Qc) : or_zero (func_sum l) = foldr Qcplus 0%Qc l.
Proof.
  destruct l as [|q l]; [done|]. unfold func_sum, or_zero.
  case_bool_decide; congruence.
Qed.

Lemma sum_of_type ty l :
  foldr Qcplus 0%Qc (amount <$> of_type ty l) = total_of ty l.
Proof.
  unfold of_type. induction l as [|t l IH]; [done|].
  rewrite filter_cons. cbn [total_of].
  destruct (decide (transaction_type t = ty)); [|done].
  rewrite fmap_cons. cbn [foldr]. by rewrite IH.
Qed.

Lemma get_total_income_total_of db :
  get_total_income db = total_of TransactionType.INCOME (rows db).
Proof. unfold get_total_income. by rewrite or_zero_func_sum, sum_of_type. Qed.

Lemma get_total_expenses_total_of db :
  get_total_expenses db = total_of TransactionType.EXPENSE (rows db).
Proof. unfold get_total_expenses. by rewrite or_zero_func_sum, sum_of_type. Qed.

Lemma total_of_no_match ty l :
  Forall (λ t, transaction_type t ≠ ty) l → total_of ty l = 0%Qc.
Proof.
  induction 1 as [|t l Ht _ IH]; [done|]. simpl.
  by destruct (decide (transaction_type t = ty)).
Qed.

Lemma length_rows db : length (rows db) = size (transactions db).
Proof. unfold rows. by rewrite length_fmap, length_map_to_list. Qed.

(** Every transaction has one of the three types. *)
Lemma count_of_types l :
  length l
  = (count_of TransactionType.INCOME l + count_of TransactionType.EXPENSE l
     + count_of TransactionType.TRANSFER l)%nat.
Proof.
  unfold count_of. induction l as [|t l IH]; [done|].
  rewrite !filter_cons.
  destruct (transaction_type t);
    repeat (destruct (decide _) as [?|?]; try done);
    cbn [length]; lia.
Qed.

Lemma total_of_Permutation ty l1 l2 : l1 ≡ₚ l2 → total_of ty l1 = total_of ty l2.
Proof.
  induction 1 as [|t l1 l2 _ IH|t1 t2 l|l1 l2 l3 _ IH1 _ IH2]; cbn [total_of].
  - done.
  - by rewrite IH.
  - destruct (decide (transaction_type t1 = ty)),
      (decide (transaction_type t2 = ty)); try done.
    rewrite !Qcplus_assoc. f_equal. apply Qcplus_comm.
  - congruence.
Qed.

(** The rows after an insert under a fresh key. *)
Lemma rows_insert db tc :
  (map_to_list (<[next_id (transactions db) := new_row db tc]> (transactions db))).*2
  ≡ₚ new_row db tc :: rows db.
Proof.
  unfold rows. rewrite map_to_list_insert by apply next_id_fresh. done.
Qed.

(** What one more transaction does to the count and to the two sums. *)
Lemma create_transaction_totals db tc :
  accepts db →
  let db' := (crud.create_transaction tc db).2 in
  get_transaction_count db' = get_transaction_count db + 1
  ∧ get_total_income db'
    = (if decide (data_contract.transaction_type tc = TransactionType.INCOME)
       then data_contract.amount tc + get_total_income db
       else get_total_income db)%Qc
  ∧ get_total_expenses db'
    = (if decide (data_contract.transaction_type tc = TransactionType.EXPENSE)
       then data_contract.amount tc + get_total_expenses db
       else get_total_expenses db)%Qc.
Proof.
  intros Ha. rewrite (create_transaction_accepted db tc Ha). cbn [snd].
  rewrite !get_total_income_total_of, !get_total_expenses_total_of.
  unfold get_transaction_count, rows at 1 3. cbn [transactions].
  rewrite size_insert_new_row.
  rewrite !(total_of_Permutation _ _ _ (rows_insert db tc)).
  cbn [total_of new_row transaction_type amount].
  split; [lia|]. done.
Qed.

End totals.



(** The figures of the specification: nothing on an empty table; after an
    income of 100.00 and an expense of 40.00 the totals are 100.00 and 40.00,
    the net worth 60.00 and the count 2. *)
Example totals_of_income_and_expense :
  get_total_income sample_session = 0%Qc
  ∧ get_total_expenses sample_session = 0%Qc
  ∧ total_income (get_dashboard_summary income_and_expense) = Qc_of_Z 100
  ∧ total_expenses (get_dashboard_summary income_and_expense) = Qc_of_Z 40
  ∧ net_worth (get_dashboard_summary income_and_expense) = Qc_of_Z 60
  ∧ transaction_count (get_dashboard_summary income_and_expense) = 2.
Proof.
  repeat apply conj; try (apply Qc_is_canon; vm_compute; reflexivity).
  vm_compute. reflexivity.
Qed.

(** ** The dashboard: the top expense category *)

Section top_category.
Implicit Types (db : Session) (l : list Transaction) (c : Category.t).

Lemma Category_members_complete c : c ∈ Category.members.
Proof. destruct c; apply (bool_decide_unpack _); vm_compute; exact I. Qed.

Lemma Category_members_NoDup : NoDup Category.members.
Proof. apply (bool_decide_unpack _). vm_compute. exact I. Qed.

Lemma func_sum_Some (qs : list Qc) s :
  func_sum qs = Some s ↔ qs ≠ [] ∧ s = foldr Qcplus 0%Qc qs.
Proof.
  destruct qs as [|q qs]; simpl.
  - split; [done|]. by intros [? _].
  - split; [by intros [= <-]|by intros [_ ->]].
Qed.

Lemma sum_of_category c l :
  foldr Qcplus 0%Qc
    (amount <$> filter (λ t, category t = c) (of_type TransactionType.EXPENSE l))
  = expenses_of c l.
Proof.
  unfold of_type. induction l as [|t l IH]; [done|].
  cbn [expenses_of]. rewrite filter_cons.
  destruct (decide (transaction_type t = TransactionType.EXPENSE)) as [Hty|Hty].
  - rewrite filter_cons. destruct (decide (category t = c)) as [Hc|Hc].
    + rewrite decide_True by done. rewrite fmap_cons. cbn [foldr]. by rewrite IH.
    + rewrite decide_False by tauto. done.
  - rewrite decide_False by tauto. done.
Qed.

Lemma has_expense_filter c l :
  has_expense c l ↔
  filter (λ t, category t = c) (of_type TransactionType.EXPENSE l) ≠ [].
Proof.
  unfold has_expense, of_type. split.
  - intros (t & Hin & Hty & Hc) Hnil.
    assert (t ∈ filter (λ t, category t = c)
                  (filter (λ t, transaction_type t = TransactionType.EXPENSE) l))
      as Ht by (rewrite !list_elem_of_filter; done).
    rewrite Hnil in Ht. by apply elem_of_nil in Ht.
  - intros Hne.
    destruct (filter (λ t, category t = c)
                (filter (λ t, transaction_type t = TransactionType.EXPENSE) l))
      as [|t k] eqn:Hf; [done|].
    assert (t ∈ t :: k) as Ht by apply list_elem_of_here.
    rewrite <- Hf, !list_elem_of_filter in Ht.
    destruct Ht as (Hc & Hty & Hin). by exists t.
Qed.

(** The groups: one for every category with an expense, with its sum. *)
Lemma elem_of_group_by_category c s l :
  (c, s) ∈ group_by_category (of_type TransactionType.EXPENSE l)
  ↔ has_expense c l ∧ s = expenses_of c l.
Proof.
  unfold group_by_category. rewrite list_elem_of_omap. split.
  - intros (c' & _ & Hg).
    destruct (func_sum _) as [s'|] eqn:Hs; [|done]. simpl in Hg.
    injection Hg as <- <-. apply func_sum_Some in Hs as [Hne ->].
    rewrite sum_of_category. split; [|done].
    apply has_expense_filter. intros Hnil. by rewrite Hnil in Hne.
  - intros [Hhas ->]. exists c. split; [apply Category_members_complete|].
    apply has_expense_filter in Hhas.
    destruct (func_sum _) as [s'|] eqn:Hs.
    + apply func_sum_Some in Hs as [_ ->]. by rewrite sum_of_category.
    + exfalso. destruct (filter _ _) as [|t k]; [done|]. done.
Qed.

Lemma group_categories_sublist (f : Category.t → option Qc) (cs : list Category.t) :
  (omap (λ c, (c,.) <$> f c) cs).*1 `sublist_of` cs.
Proof.
  induction cs as [|c cs IH]; [done|]. simpl.
  destruct (f c) as [s|]; simpl; [by apply sublist_skip|by apply sublist_cons].
Qed.

Lemma group_by_category_NoDup l : NoDup (group_by_category l).*1.
Proof.
  eapply sublist_NoDup; [apply Category_members_NoDup|].
  apply group_categories_sublist.
Qed.

#[global] Instance total_desc_trans : Transitive total_desc.
Proof. intros a b c Hab Hbc. unfold total_desc in *. by etrans. Qed.

#[global] Instance total_desc_total : Total total_desc.
Proof. intros a b. unfold total_desc. destruct (Qc_le_total a.2 b.2); auto. Qed.

Lemma no_expense_iff l :
  Forall (λ t, transaction_type t ≠ TransactionType.EXPENSE) l
  ↔ ∀ c, ¬ has_expense c l.
Proof.
  rewrite Forall_forall. unfold has_expense. split.
  - intros Hall c (t & Hin & Hty & _). by apply (Hall t).
  - intros Hno t Hin Hty. apply (Hno (category t)). by exists t.
Qed.

End top_category.

(** C5. [get_top_expense_category] keeps the transactions of type
    EXPENSE, groups them by category and sums [amount] in each group: the
    groups are the categories that have an expense, each once and with the sum
    of its expenses.  It orders the groups by descending sum and answers with
    the value of the category of the first one.  So the answer is [None]
    exactly when there is no expense, and otherwise it is a category with an
    expense whose sum no other category exceeds; which one of several with
    the largest sum comes first is left to the ordering. *)
Theorem C5_top_expense_category (db : Session) :
  ∃ groups : list (Category.t * Qc),
    NoDup groups.*1
    ∧ (∀ c s, (c, s) ∈ groups ↔
              has_expense c (rows db) ∧ s = expenses_of c (rows db))
    ∧ StronglySorted total_desc groups
    ∧ get_top_expense_category db = (λ g, Category.value g.1) <$> head groups
    ∧ (get_top_expense_category db = None ↔
       Forall (λ t, transaction_type t ≠ TransactionType.EXPENSE) (rows db))
    ∧ (∀ v, get_top_expense_category db = Some v →
         ∃ c, v = Category.value c
              ∧ has_expense c (rows db)
              ∧ ∀ c', has_expense c' (rows db) →
                      (expenses_of c' (rows db) ≤ expenses_of c (rows db))%Qc).
Proof.
  set (unsorted := group_by_category (of_type TransactionType.EXPENSE (rows db))).
  set (groups := merge_sort total_desc unsorted).
  assert (groups ≡ₚ unsorted) as Hperm by apply merge_sort_Permutation.
  assert (∀ c s, (c, s) ∈ groups ↔
                 has_expense c (rows db) ∧ s = expenses_of c (rows db)) as Hin.
  { intros c s. rewrite Hperm. apply elem_of_group_by_category. }
  assert (StronglySorted total_desc groups) as Hsorted
    by apply (StronglySorted_merge_sort _).
  assert (get_top_expense_category db = (λ g, Category.value g.1) <$> head groups)
    as Htop.
  { unfold get_top_expense_category. fold unsorted groups.
    by destruct (head groups). }
  exists groups. split; [|split; [done|split; [done|split; [done|split]]]].
  - rewrite Hperm. apply group_by_category_NoDup.
  - rewrite Htop, no_expense_iff. destruct groups as [|[c s] groups'] eqn:Hg.
    + split; [|done]. intros _ c Hhas.
      assert ((c, expenses_of c (rows db)) ∈ []) as Habs by (by apply Hin).
      by apply elem_of_nil in Habs.
    + split; [done|]. intros Hno. exfalso. apply (Hno c).
      apply (Hin c s). apply list_elem_of_here.
  - intros v. rewrite Htop. destruct groups as [|[c s] groups'] eqn:Hg; [done|].
    simpl. intros [= <-].
    assert (has_expense c (rows db) ∧ s = expenses_of c (rows db)) as [Hhas ->]
      by (apply Hin, list_elem_of_here).
    exists c. split; [done|]. split; [done|]. intros c' Hhas'.
    assert ((c', expenses_of c' (rows db)) ∈ (c, expenses_of c (rows db)) :: groups')
      as Hc' by (by apply Hin).
    apply StronglySorted_inv in Hsorted as [_ Hfirst].
    apply elem_of_cons in Hc' as [[= -> _]|Hc']; [done|].
    rewrite Forall_forall in Hfirst. apply (Hfirst _ Hc').
Qed.

(** The figures of the specification: with expenses of 30 on food, 50 on
    rent and 10 on food the top category is rent; without an expense there is
    none. *)
Example top_category_of_food_rent_food :
  get_top_expense_category food_rent_food = Some "rent"
  ∧ get_top_expense_category sample_session = None.
Proof. split; vm_compute; reflexivity. Qed.

(** The theorem at the expenses of 30 on food, 50 on rent and 10 on food:
    rent has an expense and no category has a larger sum. *)
Lemma C5_top_expense_category_witness :
  get_top_expense_category food_rent_food = Some "rent"
  ∧ ∃ c, "rent" = Category.value c
         ∧ has_expense c (rows food_rent_food)
         ∧ ∀ c', has_expense c' (rows food_rent_food) →
                 (expenses_of c' (rows food_rent_food)
                  ≤ expenses_of c (rows food_rent_food))%Qc.
Proof.
  assert (get_top_expense_category food_rent_food = Some "rent") as Htop
    by (vm_compute; reflexivity).
  split; [exact Htop|].
  destruct (C5_top_expense_category food_rent_food)
    as (groups & _ & _ & _ & _ & _ & Hmax).
  exact (Hmax "rent" Htop).
Defined.

(** ** The amounts of the table *)

Section amounts.
Variable Decimal_of_str : string → result Decimal.
Implicit Types (db : Session).

Lemma model_validate_Return now body tc :
  model_validate now body = Return tc →
  body_amount body = Finite (data_contract.amount tc)
  ∧ (0 < data_contract.amount tc)%Qc
  ∧ (1 ≤ String.length (body_description body) ≤ 255)%nat
  ∧ Category.call (body_category body) = Return (data_contract.category tc)
  ∧ TransactionType.call (body_transaction_type body)
    = Return (data_contract.transaction_type tc)
  ∧ data_contract.description tc = body_description body
  ∧ data_contract.date tc = default now (body_date body).
Proof.
  unfold model_validate.
  destruct (check_amount (body_amount body)) as [q|] eqn:Ha;
    destruct (check_description (body_description body)) eqn:Hd;
    destruct (Category.call (body_category body)) as [e1|c];
    destruct (TransactionType.call (body_transaction_type body)) as [e2|ty];
    try done.
  intros [= <-]. simpl. apply check_amount_Some in Ha as [-> ?].
  apply check_description_true in Hd. done.
Qed.

Lemma model_validate_amount now body :
  check_amount (body_amount body) = None →
  ∃ fields, model_validate now body = Raise (ValidationError fields).
Proof.
  unfold model_validate. intros ->.
  destruct (check_description _), (Category.call _), (TransactionType.call _);
    by eexists.
Qed.

Lemma check_amount_not_positive q : (q ≤ 0)%Qc → check_amount (Finite q) = None.
Proof.
  intros Hq. simpl. rewrite bool_decide_eq_false_2; [done|].
  by apply Qcle_not_lt.
Qed.

Lemma positive_amounts_insert db tc :
  positive_amounts db →
  (0 < data_contract.amount tc)%Qc →
  map_Forall (λ _ t, (0 < amount t)%Qc)
    (<[next_id (transactions db) := new_row db tc]> (transactions db)).
Proof. intros Hinv Hpos. by apply map_Forall_insert_2. Qed.

Lemma create_transaction_positive db tc :
  positive_amounts db →
  (0 < data_contract.amount tc)%Qc →
  positive_amounts (crud.create_transaction tc db).2.
Proof.
  intros Hinv Hpos. unfold positive_amounts.
  destruct (create_transaction_cases db tc)
    as [(db' & -> & _ & Ht)|(e & db' & -> & _ & Ht)];
    cbn [snd]; rewrite Ht; [|done].
  by apply positive_amounts_insert.
Qed.

Lemma post_transactions_positive now body db :
  positive_amounts db → positive_amounts (app.create_transaction now body db).2.
Proof.
  intros Hinv. unfold app.create_transaction.
  destruct (model_validate now body) as [e|tc] eqn:Hv; [done|].
  apply model_validate_Return in Hv as (_ & Hpos & _).
  by apply create_transaction_positive.
Qed.

Lemma commit_delete_transactions transaction_id db :
  transactions (commit (delete transaction_id) db).2 = transactions db
  ∨ transactions (commit (delete transaction_id) db).2
    = delete transaction_id (transactions db).
Proof. unfold commit. destruct (engine db) as [|[msg|] verdicts]; simpl; auto. Qed.

Lemma delete_transaction_positive transaction_id db :
  positive_amounts db → positive_amounts (app.delete_transaction transaction_id db).2.
Proof.
  intros Hinv. unfold app.delete_transaction, crud.delete_transaction, mbind, M_bind.
  destruct (transactions db !! transaction_id) as [t|]; [|done].
  unfold positive_amounts. unfold mret, M_ret, raise. simpl.
  destruct (commit_delete_transactions transaction_id db) as [Ht|Ht];
    destruct (commit (delete transaction_id) db) as [[e|[]] db'];
    simpl in *; rewrite Ht; try done; by apply map_Forall_delete.
Qed.

Lemma for_rows_positive clock rows l db :
  positive_amounts db →
  positive_amounts (for_rows Decimal_of_str clock rows l db).2.
Proof.
  revert l db. induction rows as [|[index row] rows IH]; intros l db Hinv; [done|].
  simpl. unfold mbind, M_bind.
  destruct (row_step_cases Decimal_of_str clock index row l db)
    as [(msg & db' & -> & _ & Ht)|(tc & cell & db' & -> & _ & _ & Hpos & _ & Ht)];
    apply IH; unfold positive_amounts; rewrite Ht; [done|].
  by apply positive_amounts_insert.
Qed.

Lemma upload_positive clock filename read db :
  positive_amounts db →
  positive_amounts
    (upload_transactions_csv Decimal_of_str clock filename read db).2.
Proof.
  intros Hinv. unfold upload_transactions_csv.
  destruct (endswith filename ".csv"); [|done]. simpl.
  unfold upload_try, mbind, M_bind, lift.
  destruct read as [e|df]; [by destruct e|].
  case_bool_decide; [done|].
  pose proof (for_rows_positive clock (iterrows df) Locals_init db Hinv) as Hloop.
  destruct (for_rows Decimal_of_str clock (iterrows df) Locals_init db)
    as [[e|l] db']; [by destruct e|done].
Qed.

(** Every write path keeps the amounts positive. *)
Lemma handle_positive r db :
  positive_amounts db → positive_amounts (handle Decimal_of_str r db).
Proof.
  destruct r; simpl;
    auto using post_transactions_positive, delete_transaction_positive,
      upload_positive.
Qed.

Lemma reachable_positive db : reachable Decimal_of_str db → positive_amounts db.
Proof.
  induction 1 as [cols verdicts|db r _ IH].
  - apply map_Forall_empty.
  - by apply handle_positive.
Qed.

(** A body with a non-positive amount is refused at validation. *)
Lemma post_transactions_rejected now body q db :
  body_amount body = Finite q → (q ≤ 0)%Qc →
  ∃ detail,
    app.create_transaction now body db = (Raise (HTTPException 422 detail), db).
Proof.
  intros Ha Hq. unfold app.create_transaction.
  destruct (model_validate_amount now body) as [fields ->];
    [rewrite Ha; by apply check_amount_not_positive|].
  by eexists.
Qed.

(** A row with a non-positive amount gives a message and no insert. *)
Lemma row_step_rejected clock index row l cell q db :
  getitem row "amount" = Return cell →
  Decimal_of_str cell = Return (Finite q) →
  (q ≤ 0)%Qc →
  ∃ l' db',
    row_step Decimal_of_str clock index row l db = (Return l', db')
    ∧ transactions db' = transactions db
    ∧ successful_imports l' = successful_imports l
    ∧ length (errors l') = S (length (errors l)).
Proof.
  intros Hcell Ha Hq.
  destruct (row_step_cases Decimal_of_str clock index row l db)
    as [(msg & db' & -> & _ & Ht)
       |(tc & cell' & db' & _ & Hcell' & Ha' & Hpos & _)].
  - eexists _, _. split; [done|]. split; [done|]. split; [done|].
    simpl. rewrite length_app. simpl. lia.
  - rewrite Hcell in Hcell'. injection Hcell' as <-.
    rewrite Ha in Ha'. injection Ha' as ->.
    by apply Qcle_not_lt in Hq.
Qed.

End amounts.



(** ** Create, get and delete *)

Section crud_calls.
Implicit Types (db : Session).

Lemma Category_call_value c : Category.call (Category.value c) = Return c.
Proof. by destruct c. Qed.

Lemma TransactionType_call_value ty :
  TransactionType.call (TransactionType.value ty) = Return ty.
Proof. by destruct ty. Qed.

Lemma model_validate_valid now body q c ty :
  body_amount body = Finite q →
  (0 < q)%Qc →
  (1 ≤ String.length (body_description body) ≤ 255)%nat →
  body_category body = Category.value c →
  body_transaction_type body = TransactionType.value ty →
  model_validate now body
  = Return {| data_contract.amount := q;
              data_contract.description := body_description body;
              data_contract.category := c;
              data_contract.transaction_type := ty;
              data_contract.date := default now (body_date body) |}.
Proof.
  intros Ha Hq Hd Hc Hty. unfold model_validate.
  rewrite Ha, Hc, Hty, Category_call_value, TransactionType_call_value.
  assert (check_amount (Finite q) = Some q) as -> by (by apply check_amount_Some).
  assert (check_description (body_description body) = true) as ->
    by (by apply check_description_true).
  done.
Qed.

Lemma delete_transaction_present db transaction_id t :
  transactions db !! transaction_id = Some t →
  accepts db →
  crud.delete_transaction transaction_id db
  = (Return true,
     {| columns := columns db;
        transactions := delete transaction_id (transactions db);
        engine := tail (engine db) |}).
Proof.
  intros Hin Ha. unfold crud.delete_transaction, mbind, M_bind, commit.
  rewrite Hin. unfold accepts in Ha.
  by destruct (engine db) as [|[msg|] verdicts].
Qed.

Lemma delete_transaction_absent db transaction_id :
  transactions db !! transaction_id = None →
  crud.delete_transaction transaction_id db = (Return false, db).
Proof. intros Hout. unfold crud.delete_transaction. by rewrite Hout. Qed.

End crud_calls.



(** ** The list of transactions *)

Section listing.
Implicit Types (db : Session).

#[global] Instance date_desc_trans : Transitive date_desc.
Proof. intros a b c. unfold date_desc. lia. Qed.

#[global] Instance date_desc_total : Total date_desc.
Proof. intros a b. unfold date_desc. lia. Qed.

Lemma order_by_date_desc_Permutation db : order_by_date_desc (rows db) ≡ₚ rows db.
Proof. apply merge_sort_Permutation. Qed.

Lemma order_by_date_desc_sorted db :
  StronglySorted date_desc (order_by_date_desc (rows db)).
Proof. apply (StronglySorted_merge_sort _). Qed.

Lemma length_order_by_date_desc db :
  length (order_by_date_desc (rows db)) = size (transactions db).
Proof. by rewrite order_by_date_desc_Permutation, length_rows. Qed.

(** A negative limit is no limit and a negative skip skips nothing. *)
Lemma get_transactions_negative_limit db skip lim :
  lim < 0 →
  get_transactions db skip lim
  = drop (Z.to_nat skip) (order_by_date_desc (rows db)).
Proof.
  intros Hlim. unfold get_transactions, crud.get_transactions, limit, offset.
  by rewrite bool_decide_eq_true_2.
Qed.

Lemma get_transactions_negative_skip db skip lim :
  skip < 0 →
  get_transactions db skip lim = get_transactions db 0 lim.
Proof.
  intros Hskip. unfold get_transactions, crud.get_transactions, offset.
  by replace (Z.to_nat skip) with (Z.to_nat 0) by lia.
Qed.

End listing.




(** ** The value of [created_at] *)

Section created.
Implicit Types (db : Session).

(** The value that a new row gets for [created_at] is the default of the
    column, whatever the clock reads when the row is persisted. *)
Lemma create_transaction_created_at db tc t db' :
  crud.create_transaction tc db = (Return t, db') →
  created_at t = created_at_default (columns db) ∧ columns db' = columns db.
Proof.
  intros Hc.
  destruct (create_transaction_cases db tc)
    as [(db1 & H1 & Hcols & _)|(e & db1 & H1 & _)];
    rewrite H1 in Hc; by simplify_eq.
Qed.

(** No request alters a row of the table: a row is still there, as it
    was, or it has been deleted. *)
Lemma create_transaction_keeps db tc k t :
  transactions db !! k = Some t →
  transactions (crud.create_transaction tc db).2 !! k = Some t.
Proof.
  intros Hk.
  destruct (create_transaction_cases db tc)
    as [(db' & -> & _ & Ht)|(e & db' & -> & _ & Ht)]; cbn [snd]; rewrite Ht;
    [|done].
  rewrite lookup_insert_ne; [done|].
  apply next_id_bound in Hk. lia.
Qed.

Lemma for_rows_keeps Decimal_of_str clock rows l db k t :
  transactions db !! k = Some t →
  transactions (for_rows Decimal_of_str clock rows l db).2 !! k = Some t.
Proof.
  revert l db. induction rows as [|[index row] rows IH]; intros l db Hk; [done|].
  simpl. unfold mbind, M_bind.
  destruct (row_step_cases Decimal_of_str clock index row l db)
    as [(msg & db' & -> & _ & Ht)|(tc & cell & db' & -> & _ & _ & _ & _ & Ht)];
    apply IH; rewrite Ht; [done|].
  rewrite lookup_insert_ne; [done|].
  apply next_id_bound in Hk. lia.
Qed.

Lemma handle_keeps_rows Decimal_of_str r db k t :
  transactions db !! k = Some t →
  transactions (handle Decimal_of_str r db) !! k = Some t
  ∨ transactions (handle Decimal_of_str r db) !! k = None.
Proof.
  intros Hk. destruct r as [now body|transaction_id|clock filename read]; simpl.
  - left. unfold app.create_transaction.
    destruct (model_validate now body) as [e|tc]; [done|].
    by apply create_transaction_keeps.
  - unfold app.delete_transaction, crud.delete_transaction, mbind, M_bind.
    destruct (transactions db !! transaction_id) as [t'|]; [|by left].
    unfold mret, M_ret, raise.
    destruct (commit_delete_transactions transaction_id db) as [Ht|Ht];
      destruct (commit (delete transaction_id) db) as [[e|[]] db'];
      simpl in *; rewrite Ht; try (by left).
    all: destruct (decide (transaction_id = k)) as [->|Hne];
      [right; apply lookup_delete_eq|left; by rewrite lookup_delete_ne].
  - left. unfold upload_transactions_csv.
    destruct (endswith filename ".csv"); [|done]. simpl.
    unfold upload_try, mbind, M_bind, lift.
    destruct read as [e|df]; [by destruct e|].
    case_bool_decide; [done|].
    pose proof (for_rows_keeps Decimal_of_str clock (iterrows df) Locals_init
                  db k t Hk) as Hloop.
    destruct (for_rows Decimal_of_str clock (iterrows df) Locals_init db)
      as [[e|l] db']; [by destruct e|done].
Qed.

End created.

(** C9, at two POST /transactions handled at the clock readings 2000 and
    3000 by a process that imported [database] at the reading 1000: both
    rows have [created_at] 1000, while their [date], whose default is taken
    when the request is validated, is 2000 and 3000. *)
Theorem C9_created_at_is_the_import_time :
  let r1 := app.create_transaction 2000 (sample_body 100 "salary" "income")
              session_imported_at_1000 in
  let r2 := app.create_transaction 3000 (sample_body 40 "food" "expense") r1.2 in
  created_at <$> returned r1.1 = Some 1000
  ∧ created_at <$> returned r2.1 = Some 1000
  ∧ date <$> returned r1.1 = Some 2000
  ∧ date <$> returned r2.1 = Some 3000.
Proof. repeat apply conj; vm_compute; reflexivity. Qed.

(** * Further properties of the code *)

(** ** The enumerations *)

Section enumerations.

Lemma Category_call_Return s c : Category.call s = Return c → s = Category.value c.
Proof.
  unfold Category.call.
  destruct (find _ Category.members) as [m|] eqn:Hf; [|done].
  intros [= ->]. apply find_some in Hf as [_ Heq].
  by apply String.eqb_eq in Heq.
Qed.

Lemma TransactionType_call_Return s ty :
  TransactionType.call s = Return ty → s = TransactionType.value ty.
Proof.
  unfold TransactionType.call.
  destruct (find _ TransactionType.members) as [m|] eqn:Hf; [|done].
  intros [= ->]. apply find_some in Hf as [_ Heq].
  by apply String.eqb_eq in Heq.
Qed.

Lemma Category_call_Raise s :
  (∃ c, Category.call s = Return c)
  ∨ Category.call s = Raise (ValueError ("'" +:+ s +:+ "' is not a valid Category")).
Proof. unfold Category.call. destruct (find _ _); eauto. Qed.

Lemma TransactionType_call_Raise s :
  (∃ ty, TransactionType.call s = Return ty)
  ∨ TransactionType.call s
    = Raise (ValueError ("'" +:+ s +:+ "' is not a valid TransactionType")).
Proof. unfold TransactionType.call. destruct (find _ _); eauto. Qed.

Lemma elem_of_category_str s : s ∈ category_str ↔ ∃ c, s = Category.value c.
Proof.
  unfold category_str. rewrite list_elem_of_fmap. split.
  - intros (c & -> & _). by exists c.
  - intros [c ->]. exists c. split; [done|apply Category_members_complete].
Qed.

Lemma TransactionType_members_complete ty : ty ∈ TransactionType.members.
Proof. destruct ty; apply (bool_decide_unpack _); vm_compute; exact I. Qed.

Lemma elem_of_transaction_type_str s :
  s ∈ transaction_type_str ↔ ∃ ty, s = TransactionType.value ty.
Proof.
  unfold transaction_type_str. rewrite list_elem_of_fmap. split.
  - intros (ty & -> & _). by exists ty.
  - intros [ty ->]. exists ty. split; [done|apply TransactionType_members_complete].
Qed.

End enumerations.

(** X1. The constructors of the two enumerations invert [value]:
    [Category(s)] returns the member [c] exactly when [s] is the value of
    [c], and so for [TransactionType]; the values of distinct members differ.
    A text is in the list against which the import checks a cell exactly when
    the constructor returns on it, so after the check the constructor does not
    raise. *)
Theorem enumerations_round_trip :
  (∀ s c, Category.call s = Return c ↔ s = Category.value c)
  ∧ (∀ s ty, TransactionType.call s = Return ty ↔ s = TransactionType.value ty)
  ∧ (∀ c1 c2, Category.value c1 = Category.value c2 → c1 = c2)
  ∧ (∀ ty1 ty2, TransactionType.value ty1 = TransactionType.value ty2 → ty1 = ty2)
  ∧ (∀ s, s ∈ category_str ↔ ∃ c, Category.call s = Return c)
  ∧ (∀ s, s ∈ transaction_type_str ↔ ∃ ty, TransactionType.call s = Return ty).
Proof.
  assert (∀ s c, Category.call s = Return c ↔ s = Category.value c) as Hc.
  { intros s c. split; [apply Category_call_Return|].
    intros ->. apply Category_call_value. }
  assert (∀ s ty, TransactionType.call s = Return ty ↔ s = TransactionType.value ty)
    as Hty.
  { intros s ty. split; [apply TransactionType_call_Return|].
    intros ->. apply TransactionType_call_value. }
  split; [done|]. split; [done|]. split; [|split; [|split]].
  - intros c1 c2 Hv. apply Hc in Hv. rewrite Category_call_value in Hv.
    by injection Hv.
  - intros ty1 ty2 Hv. apply Hty in Hv.
    rewrite TransactionType_call_value in Hv. by injection Hv.
  - intros s. rewrite elem_of_category_str.
    split; intros [c H]; exists c; by apply Hc.
  - intros s. rewrite elem_of_transaction_type_str.
    split; intros [ty H]; exists ty; by apply Hty.
Qed.

(** ** Validation at POST /transactions *)

Section post.
Implicit Types (db : Session) (body : TransactionBody).

Lemma valid_body_Return now body :
  valid_body body ↔ ∃ tc, model_validate now body = Return tc.
Proof.
  split.
  - intros ((q & Ha & Hq) & Hd & Hc & Hty).
    apply elem_of_category_str in Hc as [c Hc].
    apply elem_of_transaction_type_str in Hty as [ty Hty].
    eexists. by apply (model_validate_valid now body q c ty).
  - intros [tc Hv].
    apply model_validate_Return in Hv as (Ha & Hq & Hd & Hc & Hty & _).
    split; [by eexists|]. split; [done|].
    apply Category_call_Return in Hc. apply TransactionType_call_Return in Hty.
    split; [apply elem_of_category_str|apply elem_of_transaction_type_str];
      by eexists.
Qed.

Lemma create_transaction_status db tc :
  status_code (crud.create_transaction tc db).1 = 200
  ∨ status_code (crud.create_transaction tc db).1 = 500.
Proof.
  destruct (create_transaction_cases db tc)
    as [(db' & -> & _)|(e & db' & He & _)]; [by left|right].
  destruct (decide (accepts db)) as [Ha|Hn].
  - rewrite create_transaction_accepted in He by done. done.
  - destruct (create_transaction_refused db tc Hn) as (msg & v & _ & ->). done.
Qed.

End post.


(** ** The answers of the upload *)

Section upload_answers.
Variable Decimal_of_str : string → result Decimal.
Variable clock : Z → datetime.

Lemma substring_0_length s : String.substring 0 (String.length s) s = s.
Proof. induction s as [|c s IH]; [done|]. cbn. by rewrite IH. Qed.

Lemma substring_app p suffix :
  String.substring (String.length p) (String.length suffix) (p +:+ suffix) = suffix.
Proof.
  induction p as [|c p IH]; [apply substring_0_length|].
  change (String c p +:+ suffix) with (String c (p +:+ suffix)). by cbn.
Qed.

Lemma string_length_app a b :
  String.length (a +:+ b) = (String.length a + String.length b)%nat.
Proof.
  induction a as [|c a IH]; [done|].
  change (String c a +:+ b) with (String c (a +:+ b)). cbn. by rewrite IH.
Qed.

Lemma substring_split s n m :
  (n + m = String.length s)%nat →
  s = String.substring 0 n s +:+ String.substring n m s.
Proof.
  revert n m. induction s as [|c s IH]; intros n m Hlen.
  - by destruct n, m.
  - destruct n as [|n].
    + cbn in Hlen. subst m. cbn. by rewrite substring_0_length.
    + cbn in Hlen. cbn [String.substring].
      change (String c (String.substring 0 n s) +:+ String.substring n m s)
        with (String c (String.substring 0 n s +:+ String.substring n m s)).
      f_equal. apply IH. lia.
Qed.

(** [endswith] holds of the texts that end in the suffix. *)
Lemma endswith_spec s suffix :
  endswith s suffix = true ↔ ∃ p, s = p +:+ suffix.
Proof.
  unfold endswith. rewrite andb_true_iff, bool_decide_eq_true, String.eqb_eq.
  split.
  - intros [Hle Hsub]. exists (String.substring 0 (String.length s - String.length suffix) s).
    rewrite <- Hsub at 2. apply substring_split. lia.
  - intros [p ->]. rewrite string_length_app. split; [lia|].
    replace (String.length p + String.length suffix - String.length suffix)%nat
      with (String.length p) by lia.
    apply substring_app.
Qed.

(** The session after an upload that is not answered with a report is the
    session before it. *)
Lemma upload_cases filename read db :
  (∃ df l db',
     endswith filename ".csv" = true
     ∧ read = Return df
     ∧ has_required_columns df
     ∧ for_rows Decimal_of_str clock (iterrows df) Locals_init db = (Return l, db')
     ∧ upload_transactions_csv Decimal_of_str clock filename read db
       = (Return (report_of df l), db'))
  ∨ (∃ code detail,
       upload_transactions_csv Decimal_of_str clock filename read db
       = (Raise (HTTPException code detail), db)
       ∧ (code = 400 ∨ code = 500)
       ∧ ¬ (endswith filename ".csv" = true
            ∧ ∃ df, read = Return df ∧ has_required_columns df)).
Proof.
  destruct (endswith filename ".csv") eqn:Hname.
  - destruct read as [e|df].
    + right. unfold upload_transactions_csv. rewrite Hname. simpl.
      destruct e; eexists _, _; (split; [done|]);
        (split; [auto|]); by intros [_ (df & ? & _)].
    + destruct (decide (has_required_columns df)) as [Hcols|Hcols].
      * left.
        destruct (for_rows_returns Decimal_of_str clock (iterrows df) Locals_init db)
          as (l & db' & Hloop).
        exists df, l, db'. repeat (split; [done|]).
        by apply upload_reaches_rows.
      * right. rewrite upload_missing_columns by done.
        eexists _, _. split; [done|]. split; [auto|].
        intros [_ (df' & [= <-] & ?)]. done.
  - right. rewrite upload_not_csv by done.
    eexists _, _. split; [done|]. split; [auto|]. by intros [? _].
Qed.

End upload_answers.

(** X3. An upload whose file name does not end in [.csv] is answered
    with status 400 and the detail ["File must be a CSV"], whatever the
    content is, read or not readable, and the session is as it was. *)
Theorem upload_refuses_other_names
    (Decimal_of_str : string → result Decimal) (clock : Z → datetime)
    (filename : string) (read : result DataFrame) (db : Session) :
  (∀ p, filename ≠ p +:+ ".csv") →
  upload_transactions_csv Decimal_of_str clock filename read db
  = (Raise (HTTPException 400 "File must be a CSV"), db).
Proof.
  intros Hname. apply upload_not_csv.
  destruct (endswith filename ".csv") eqn:He; [|done].
  apply endswith_spec in He as [p ->]. by destruct (Hname p).
Qed.

(** The theorem at the name [upload.txt] and content that would import. *)
Lemma upload_refuses_other_names_witness :
  (∀ p, "upload.txt" ≠ p +:+ ".csv")
  ∧ upload_transactions_csv decimal.Decimal sample_clock "upload.txt"
      (Return sample_frame) sample_session
    = (Raise (HTTPException 400 "File must be a CSV"), sample_session).
Proof.
  assert (∀ p, "upload.txt" ≠ p +:+ ".csv") as Hname.
  { intros p Hp.
    assert (endswith "upload.txt" ".csv" = true) as He
      by (apply endswith_spec; by exists p).
    vm_compute in He. discriminate He. }
  split; [exact Hname|].
  exact (upload_refuses_other_names decimal.Decimal sample_clock "upload.txt"
           (Return sample_frame) sample_session Hname).
Defined.



(** ** DELETE /transactions/{transaction_id} *)



(** ** Rows are written once *)

(** X6. No request changes a row of the table: after a POST
    /transactions, a DELETE or an upload, a row that was in the table is still
    there with every field as it was, unless the request is the DELETE of its
    own key, which removes it. *)
Theorem requests_never_alter_rows
    (Decimal_of_str : string → result Decimal) (r : request) (db : Session)
    (k : Z) (t : Transaction) :
  crud.get_transaction db k = Some t →
  crud.get_transaction (handle Decimal_of_str r db) k = Some t
  ∨ (r = DELETE_transaction k
     ∧ crud.get_transaction (handle Decimal_of_str r db) k = None).
Proof.
  unfold crud.get_transaction. intros Hk.
  destruct r as [now body|transaction_id|clk filename read].
  - left. simpl. unfold app.create_transaction.
    destruct (model_validate now body) as [e|tc]; [done|].
    by apply create_transaction_keeps.
  - destruct (decide (transaction_id = k)) as [->|Hne].
    + destruct (handle_keeps_rows Decimal_of_str (DELETE_transaction k) db k t Hk);
        auto.
    + left. simpl.
      unfold app.delete_transaction, crud.delete_transaction, mbind, M_bind.
      destruct (transactions db !! transaction_id) as [t'|]; [|done].
      unfold mret, M_ret, raise.
      destruct (commit_delete_transactions transaction_id db) as [Ht|Ht];
        destruct (commit (delete transaction_id) db) as [[e|[]] db'];
        simpl in *; rewrite Ht; try done; by rewrite lookup_delete_ne.
  - left. simpl. unfold upload_transactions_csv.
    destruct (endswith filename ".csv"); [|done]. simpl.
    unfold upload_try, mbind, M_bind, lift.
    destruct read as [e|df]; [by destruct e|].
    case_bool_decide; [done|].
    pose proof (for_rows_keeps Decimal_of_str clk (iterrows df) Locals_init
                  db k t Hk) as Hloop.
    destruct (for_rows Decimal_of_str clk (iterrows df) Locals_init db)
      as [[e|l] db']; [by destruct e|done].
Qed.

(** The theorem at the table with an income and an expense, the row under
    the key 1 and the upload of the specification. *)
Lemma requests_never_alter_rows_witness :
  ∃ t,
    crud.get_transaction income_and_expense 1 = Some t
    ∧ crud.get_transaction
        (handle decimal.Decimal
           (POST_upload_csv sample_clock "upload.csv" (Return sample_frame))
           income_and_expense) 1 = Some t.
Proof.
  assert (is_Some (crud.get_transaction income_and_expense 1)) as [t Ht]
    by (apply (bool_decide_unpack _); vm_compute; exact I).
  exists t. split; [exact Ht|].
  destruct (requests_never_alter_rows decimal.Decimal
              (POST_upload_csv sample_clock "upload.csv" (Return sample_frame))
              income_and_expense 1 t Ht) as [H|[H _]];
    [exact H|discriminate H].
Defined.

(** ** Keys and the list of transactions *)

Section keys.
Variable Decimal_of_str : string → result Decimal.
Implicit Types (db : Session).

Lemma keys_match_insert db tc :
  keys_match db →
  map_Forall (λ k t, id t = k)
    (<[next_id (transactions db) := new_row db tc]> (transactions db)).
Proof. intros Hinv. by apply map_Forall_insert_2. Qed.

Lemma for_rows_keys_match clock rows l db :
  keys_match db → keys_match (for_rows Decimal_of_str clock rows l db).2.
Proof.
  revert l db. induction rows as [|[index row] rows IH]; intros l db Hinv; [done|].
  simpl. unfold mbind, M_bind.
  destruct (row_step_cases Decimal_of_str clock index row l db)
    as [(msg & db' & -> & _ & Ht)|(tc & cell & db' & -> & _ & _ & _ & _ & Ht)];
    apply IH; unfold keys_match; rewrite Ht; [done|].
  by apply keys_match_insert.
Qed.

Lemma handle_keys_match r db :
  keys_match db → keys_match (handle Decimal_of_str r db).
Proof.
  intros Hinv. destruct r as [now body|transaction_id|clock filename read]; simpl.
  - unfold app.create_transaction.
    destruct (model_validate now body) as [e|tc]; [done|].
    unfold keys_match.
    destruct (create_transaction_cases db tc)
      as [(db' & -> & _ & Ht)|(e & db' & -> & _ & Ht)];
      cbn [snd]; rewrite Ht; [|done].
    by apply keys_match_insert.
  - unfold app.delete_transaction, crud.delete_transaction, mbind, M_bind.
    destruct (transactions db !! transaction_id) as [t|]; [|done].
    unfold keys_match, mret, M_ret, raise.
    destruct (commit_delete_transactions transaction_id db) as [Ht|Ht];
      destruct (commit (delete transaction_id) db) as [[e|[]] db'];
      simpl in *; rewrite Ht; try done; by apply map_Forall_delete.
  - unfold upload_transactions_csv.
    destruct (endswith filename ".csv"); [|done]. simpl.
    unfold upload_try, mbind, M_bind, lift.
    destruct read as [e|df]; [by destruct e|].
    case_bool_decide; [done|].
    pose proof (for_rows_keys_match clock (iterrows df) Locals_init db Hinv)
      as Hloop.
    destruct (for_rows Decimal_of_str clock (iterrows df) Locals_init db)
      as [[e|l] db']; [by destruct e|done].
Qed.

Lemma reachable_keys_match db : reachable Decimal_of_str db → keys_match db.
Proof.
  induction 1 as [cols verdicts|db r _ IH].
  - apply map_Forall_empty.
  - by apply handle_keys_match.
Qed.

End keys.

Section listing_more.
Implicit Types (db : Session).

Lemma elem_of_rows db t : t ∈ rows db ↔ ∃ k, transactions db !! k = Some t.
Proof.
  unfold rows. rewrite list_elem_of_fmap. split.
  - intros ([k t'] & -> & Hin). exists k. by apply elem_of_map_to_list.
  - intros [k Hk]. exists (k, t). split; [done|]. by apply elem_of_map_to_list.
Qed.

Lemma rows_ids db : keys_match db → id <$> rows db = (map_to_list (transactions db)).*1.
Proof.
  intros Hinv. unfold rows. rewrite <- list_fmap_compose.
  apply list_fmap_ext. intros i [k t] Hi. simpl.
  apply (Hinv k t). apply elem_of_map_to_list.
  apply list_elem_of_lookup. by exists i.
Qed.

Lemma get_transactions_sublist db skip lim :
  get_transactions db skip lim `sublist_of` order_by_date_desc (rows db).
Proof.
  unfold get_transactions, crud.get_transactions, limit, offset.
  case_bool_decide.
  - apply sublist_drop.
  - etrans; [apply sublist_take|apply sublist_drop].
Qed.

Lemma elem_of_get_transactions db skip lim t :
  t ∈ get_transactions db skip lim → t ∈ rows db.
Proof.
  intros Hin. rewrite <- (order_by_date_desc_Permutation db).
  eapply elem_of_sublist; [done|apply get_transactions_sublist].
Qed.

End listing_more.

(** X7. In every session that the service reaches from an empty table,
    each row is stored under its own [id].  So the list of transactions, for
    any skip and limit, holds no [id] twice, and [get] on the [id] of a listed
    entity returns that entity. *)
Theorem list_agrees_with_get
    (Decimal_of_str : string → result Decimal) (db : Session) (skip lim : Z) :
  reachable Decimal_of_str db →
  (∀ k t, crud.get_transaction db k = Some t → id t = k)
  ∧ NoDup (id <$> get_transactions db skip lim)
  ∧ ∀ t, t ∈ get_transactions db skip lim →
         crud.get_transaction db (id t) = Some t.
Proof.
  intros Hreach.
  pose proof (reachable_keys_match Decimal_of_str db Hreach) as Hinv.
  split; [exact Hinv|]. split.
  - eapply sublist_NoDup;
      [|apply fmap_sublist, (get_transactions_sublist db skip lim)].
    rewrite (order_by_date_desc_Permutation db), rows_ids by done.
    apply NoDup_fst_map_to_list.
  - intros t Hin. apply elem_of_get_transactions, elem_of_rows in Hin as [k Hk].
    unfold crud.get_transaction. by rewrite (Hinv k t Hk).
Qed.

(** The theorem at the session after the upload of the specification. *)
Lemma list_agrees_with_get_witness :
  let db := handle decimal.Decimal
              (POST_upload_csv sample_clock "upload.csv" (Return sample_frame))
              sample_session in
  reachable decimal.Decimal db
  ∧ NoDup (id <$> get_transactions db 0 100)
  ∧ ∀ t, t ∈ get_transactions db 0 100 →
         crud.get_transaction db (id t) = Some t.
Proof.
  intros db.
  assert (reachable decimal.Decimal db) as Hreach
    by apply reachable_step, reachable_start.
  destruct (list_agrees_with_get decimal.Decimal db 0 100 Hreach)
    as (_ & Hnodup & Hget).
  split; [exact Hreach|]. split; [exact Hnodup|exact Hget].
Defined.





(** ** The net worth *)

Section net.
Implicit Types (db : Session) (l : list Transaction).

Lemma signed_total_totals l :
  (total_of TransactionType.INCOME l - total_of TransactionType.EXPENSE l)%Qc
  = signed_total l.
Proof.
  induction l as [|t l IH]; [done|].
  cbn [total_of signed_total foldr]. fold (signed_total l). rewrite <- IH.
  unfold signed_amount.
  destruct (transaction_type t);
    repeat (destruct (decide _) as [?|?]; try done); ring.
Qed.

Lemma signed_total_Permutation l1 l2 : l1 ≡ₚ l2 → signed_total l1 = signed_total l2.
Proof.
  induction 1 as [|t l1 l2 _ IH|t1 t2 l|l1 l2 l3 _ IH1 _ IH2];
    cbn [signed_total foldr].
  - done.
  - fold (signed_total l1) (signed_total l2). by rewrite IH.
  - ring.
  - congruence.
Qed.

Lemma net_worth_signed_total db :
  net_worth (get_dashboard_summary db) = signed_total (rows db).
Proof.
  cbn [net_worth get_dashboard_summary].
  by rewrite get_total_income_total_of, get_total_expenses_total_of,
    signed_total_totals.
Qed.

Lemma rows_delete db k t :
  transactions db !! k = Some t →
  rows db ≡ₚ t :: (map_to_list (delete k (transactions db))).*2.
Proof.
  intros Hk. unfold rows. by rewrite <- (map_to_list_delete _ _ _ Hk).
Qed.

End net.



(** ** Which rows are imported *)

Section imported.
Variable Decimal_of_str : string → result Decimal.
Variable clock : Z → datetime.
Implicit Types (db : Session) (row : Series) (l : Locals).

Lemma count_success_not_append_error l msg : count_success l ≠ append_error l msg.
Proof.
  unfold count_success, append_error. intros [= He].
  apply (f_equal length) in He. rewrite length_app in He. simpl in He. lia.
Qed.

Lemma message_is_no_success l msg db db' (r : result Locals * Session) :
  r = (Return (append_error l msg), db) → r ≠ (Return (count_success l), db').
Proof.
  intros -> Heq. assert (count_success l = append_error l msg) as He by congruence.
  by apply count_success_not_append_error in He.
Qed.

Ltac not_a_success :=
  let He := fresh in
  intros He; exfalso; eapply message_is_no_success; [|exact He]; reflexivity.

Lemma TransactionCreate_init_valid now q d c ty :
  (0 < q)%Qc → (1 ≤ String.length d ≤ 255)%nat →
  TransactionCreate_init now (Finite q) d c ty None
  = Return {| data_contract.amount := q; data_contract.description := d;
              data_contract.category := c; data_contract.transaction_type := ty;
              data_contract.date := now |}.
Proof.
  intros Hq Hd. unfold TransactionCreate_init.
  assert (check_amount (Finite q) = Some q) as -> by (by apply check_amount_Some).
  assert (check_description d = true) as -> by (by apply check_description_true).
  done.
Qed.

(** An importable row is inserted, with the engine taking the commit. *)
Lemma row_step_importable index row l db q d c ty :
  importable Decimal_of_str row q d c ty →
  accepts db →
  row_step Decimal_of_str clock index row l db
  = (Return (count_success l),
     {| columns := columns db;
        transactions :=
          <[next_id (transactions db) :=
              {| id := next_id (transactions db);
                 amount := q; description := d; category := c;
                 transaction_type := ty; date := clock index;
                 created_at := created_at_default (columns db) |}]>
            (transactions db);
        engine := tail (engine db) |}).
Proof.
  intros (Hcat & Hty & (cell & Hcell & Ha) & Hq & Hd & Hlen) Hacc.
  unfold row_step, row_try, mbind, M_bind, lift, mret, M_ret.
  rewrite Hcat.
  rewrite bool_decide_eq_false_2
    by (intros Hno; apply Hno, elem_of_category_str; by eexists).
  rewrite Hty.
  rewrite bool_decide_eq_false_2
    by (intros Hno; apply Hno, elem_of_transaction_type_str; by eexists).
  rewrite Hcell, Ha, Hd, Category_call_value, TransactionType_call_value.
  rewrite (TransactionCreate_init_valid _ _ _ _ _ Hq Hlen).
  by rewrite create_transaction_accepted.
Qed.

(** A row that is counted as a success is importable. *)
Lemma row_step_success index row l db db' :
  row_step Decimal_of_str clock index row l db = (Return (count_success l), db') →
  ∃ q d c ty, importable Decimal_of_str row q d c ty.
Proof.
  unfold row_step, row_try, mbind, M_bind, lift, mret, M_ret.
  destruct (getitem row "category") as [e|cat] eqn:Hcat;
    [not_a_success|].
  case_bool_decide as Hc;
    [not_a_success|].
  destruct (getitem row "transaction_type") as [e|ty] eqn:Hty;
    [not_a_success|].
  case_bool_decide as Ht;
    [not_a_success|].
  destruct (getitem row "amount") as [e|cell] eqn:Hcell;
    [not_a_success|].
  destruct (Decimal_of_str cell) as [e|a] eqn:Ha;
    [not_a_success|].
  destruct (getitem row "description") as [e|d] eqn:Hd;
    [not_a_success|].
  destruct (Category.call cat) as [e|c] eqn:Hcall;
    [not_a_success|].
  destruct (TransactionType.call ty) as [e|t] eqn:Htcall;
    [not_a_success|].
  destruct (TransactionCreate_init _ _ _ _ _ _) as [e|tc] eqn:Htc;
    [not_a_success|].
  intros _.
  apply TransactionCreate_init_Return in Htc as (-> & Hq & Hlen & _).
  apply Category_call_Return in Hcall as ->.
  apply TransactionType_call_Return in Htcall as ->.
  exists (data_contract.amount tc), d, c, t.
  split; [done|]. split; [done|]. split; [by exists cell|]. done.
Qed.

(** A run of importable rows on an engine that takes every commit. *)
Lemma for_rows_importable rows l db :
  engine db = [] →
  Forall (λ ir, ∃ q d c ty, importable Decimal_of_str ir.2 q d c ty) rows →
  ∃ db',
    for_rows Decimal_of_str clock rows l db
    = (Return {| errors := errors l;
                 successful_imports :=
                   successful_imports l + Z.of_nat (length rows) |}, db')
    ∧ engine db' = []
    ∧ size (transactions db') = (size (transactions db) + length rows)%nat.
Proof.
  intros Hengine Hall. revert l db Hengine.
  induction Hall as [|[index row] rows (q & d & c & ty & Himp) _ IH];
    intros l db Hengine.
  - exists db. cbn [for_rows length]. unfold mret, M_ret.
    split; [|split; [done|lia]].
    destruct l as [es n]. cbn [errors successful_imports].
    do 3 f_equal. lia.
  - simpl. unfold mbind, M_bind.
    assert (accepts db) as Hacc by (unfold accepts; by rewrite Hengine).
    rewrite (row_step_importable index row l db q d c ty Himp Hacc).
    edestruct IH as (db' & -> & He & Hsize); [by rewrite Hengine|].
    exists db'. cbn [errors successful_imports count_success transactions] in *.
    split; [do 3 f_equal; lia|]. split; [done|].
    rewrite Hsize.
    pose proof (size_insert_new_row db
                  {| data_contract.amount := q; data_contract.description := d;
                     data_contract.category := c;
                     data_contract.transaction_type := ty;
                     data_contract.date := clock index |}) as Hs.
    unfold new_row in Hs. cbn in Hs. rewrite Hs. lia.
Qed.

End imported.



(** X12. An upload in which every row passes every check, on an engine
    that takes every commit, imports every row: the report has no message,
    its number of successful imports is its total, and the table has that many
    rows more. *)
Theorem upload_of_importable_rows
    (Decimal_of_str : string → result Decimal) (clock : Z → datetime)
    (filename : string) (df : DataFrame) (db : Session) :
  endswith filename ".csv" = true →
  has_required_columns df →
  engine db = [] →
  Forall (λ cs, ∃ q d c ty,
            importable Decimal_of_str {| labels := df_columns df; cells := cs |}
              q d c ty) (df_values df) →
  ∃ db',
    upload_transactions_csv Decimal_of_str clock filename (Return df) db
    = (Return {| message := "CSV processed successfully";
                 report_successful_imports := len df;
                 total_rows := len df;
                 report_errors := [] |}, db')
    ∧ get_transaction_count db' = get_transaction_count db + len df.
Proof.
  intros Hname Hcols Hengine Hall.
  destruct (for_rows_importable Decimal_of_str clock (iterrows df) Locals_init db
              Hengine) as (db' & Hloop & _ & Hsize).
  { unfold iterrows. apply Forall_forall. intros [i r] Hin.
    apply elem_of_lookup_imap in Hin as (j & cs & [= -> ->] & Hj).
    rewrite Forall_forall in Hall. apply Hall.
    apply list_elem_of_lookup. by exists j. }
  exists db'. rewrite length_iterrows in Hloop, Hsize.
  rewrite (upload_reaches_rows _ _ _ _ _ _ _ Hname Hcols Hloop).
  split; [|unfold get_transaction_count, len; lia].
  unfold report_of. cbn [errors successful_imports Locals_init].
  unfold len. do 2 f_equal.
Qed.

(** The theorem at an upload of two rows that pass every check. *)
Lemma upload_of_importable_rows_witness :
  endswith "upload.csv" ".csv" = true
  ∧ has_required_columns importable_frame
  ∧ engine sample_session = []
  ∧ ∃ db',
      upload_transactions_csv decimal.Decimal sample_clock "upload.csv"
        (Return importable_frame) sample_session
      = (Return {| message := "CSV processed successfully";
                   report_successful_imports := len importable_frame;
                   total_rows := len importable_frame;
                   report_errors := [] |}, db')
      ∧ get_transaction_count db'
        = get_transaction_count sample_session + len importable_frame.
Proof.
  assert (has_required_columns importable_frame) as Hcols
    by (apply (bool_decide_unpack _); vm_compute; exact I).
  split; [reflexivity|]. split; [exact Hcols|]. split; [reflexivity|].
  apply (upload_of_importable_rows decimal.Decimal sample_clock "upload.csv"
           importable_frame sample_session);
    [reflexivity|exact Hcols|reflexivity|].
  constructor; [|constructor; [|constructor]].
  - exists (Qc_of_Z 100), "pay", Category.SALARY, TransactionType.INCOME.
    split; [reflexivity|]. split; [reflexivity|].
    split; [exists "100.0"; split; [reflexivity|]|].
    + vm_compute. do 2 f_equal. apply Qc_is_canon. reflexivity.
    + split; [apply (bool_decide_unpack _); vm_compute; exact I|].
      split; [reflexivity|vm_compute; lia].
  - exists (Qc_of_Z 40), "lunch", Category.FOOD, TransactionType.EXPENSE.
    split; [reflexivity|]. split; [reflexivity|].
    split; [exists "40.0"; split; [reflexivity|]|].
    + vm_compute. do 2 f_equal. apply Qc_is_canon. reflexivity.
    + split; [apply (bool_decide_unpack _); vm_compute; exact I|].
      split; [reflexivity|vm_compute; lia].
Defined.


(** ** Accounts *)

Section account_calls.
Implicit Types (d : accounts.Database) (a : accounts.AccountCreate).

Lemma next_account_id_fresh (table : gmap Z accounts.Account) :
  table !! accounts.next_account_id table = None.
Proof.
  destruct (table !! accounts.next_account_id table) as [t|] eqn:Hk; [|done].
  unfold accounts.next_account_id in Hk.
  assert (accounts.next_account_id table ∈ (map_to_list table).*1) as Hin.
  { apply list_elem_of_fmap. exists (accounts.next_account_id table, t).
    split; [done|]. by apply elem_of_map_to_list. }
  apply foldr_max_bound in Hin. unfold accounts.next_account_id in Hin. lia.
Qed.

Lemma check_name_true s :
  accounts.check_name s = true ↔ (1 ≤ String.length s ≤ 100)%nat.
Proof.
  unfold accounts.check_name. by rewrite andb_true_iff, !bool_decide_eq_true.
Qed.

Lemma check_account_type_true s :
  accounts.check_account_type s = true ↔ (1 ≤ String.length s ≤ 50)%nat.
Proof.
  unfold accounts.check_account_type.
  by rewrite andb_true_iff, !bool_decide_eq_true.
Qed.

End account_calls.




(** ** The messages of a row *)


